(** * renameTools/rename.py: the batch rename planner

    A shallow embedding of [src/renameTools/rename.py] and the properties of
    its classifier ([extract_file_info]), candidate-name builder
    ([generate_new_filename]) and recursive planner ([_process_file],
    [collect_rename_pairs]).

    Modelling choices, all read off the source:
    - a Python [str] is a sequence of Unicode code points ([list N]), so that
      [len], [zfill] and slicing count code points as CPython does;
    - [os.path] is [posixpath]: the separator is "/" and there is no altsep;
    - a raised exception is the [Raise] outcome of the [result] type;
    - [re.search] is the parameter [re_search] of the development; a match
      object is the list of its capture groups;
    - the file system is a finite tree: a directory carries its listing in
      the order [os.listdir] enumerates it. *)

From stdpp Require Import base list strings gmap sets.

Local Open Scope Z_scope.

(** ** Python strings *)

Abbreviation str := (list N).

(** An ASCII literal as a [str]. *)
Definition lit (s : string) : str :=
  Ascii.N_of_ascii <$> String.list_ascii_of_string s.

Arguments lit s%_string.

Definition sep : N := 47%N.      (* "/" *)
Definition extsep : N := 46%N.   (* "." *)
Definition zero_digit : N := 48%N.   (* "0" *)

(** The sentinel "未知" (U+672A U+77E5). *)
Definition unknown : str := [26410%N; 30693%N].

(** [s.rfind(c)]: the highest index of [c] in [s], or -1. *)
Fixpoint rfind (c : N) (s : str) : Z :=
  match s with
  | [] => -1
  | x :: r =>
      let i := rfind c r in
      if bool_decide (0 ≤ i) then 1 + i
      else if bool_decide (x = c) then 0 else -1
  end.

Definition startswith (c : N) (s : str) : bool :=
  match s with
  | x :: _ => bool_decide (x = c)
  | [] => false
  end.

Definition endswith (c : N) (s : str) : bool :=
  match last s with
  | Some x => bool_decide (x = c)
  | None => false
  end.

(** [s[i:j]], [s[i:]] and [s[:j]] for indices that are not negative. *)
Definition slice_from (i : Z) (s : str) : str := drop (Z.to_nat i) s.
Definition slice_to (j : Z) (s : str) : str := take (Z.to_nat j) s.
Definition slice (i j : Z) (s : str) : str := slice_from i (slice_to j s).

(** [s.rstrip(c)] for a one-character argument. *)
Fixpoint rstrip (c : N) (s : str) : str :=
  match s with
  | [] => []
  | x :: r =>
      match rstrip c r with
      | [] => if bool_decide (x = c) then [] else [x]
      | r' => x :: r'
      end
  end.

(** [s.zfill(width)]: zeros are inserted on the left, after a leading sign. *)
Definition is_sign (c : N) : bool :=
  bool_decide (c = 43%N) || bool_decide (c = 45%N).

Definition zfill (width : nat) (s : str) : str :=
  if decide (width ≤ length s)%nat then s
  else
    let fill := (width - length s)%nat in
    match s with
    | c :: rest =>
        if is_sign c then c :: replicate fill zero_digit ++ rest
        else replicate fill zero_digit ++ s
    | [] => replicate fill zero_digit
    end.

(** ** posixpath *)

(** [os.path.join(a, b)] *)
Definition join (a b : str) : str :=
  if startswith sep b then b
  else if bool_decide (a = []) || endswith sep a then a ++ b
  else a ++ sep :: b.

(** [os.path.basename(p)] *)
Definition basename (p : str) : str :=
  let i := rfind sep p + 1 in
  slice_from i p.

(** [os.path.dirname(p)] *)
Definition dirname (p : str) : str :=
  let i := rfind sep p + 1 in
  let head := slice_to i p in
  if bool_decide (head ≠ []) && bool_decide (head ≠ replicate (length head) sep)
  then rstrip sep head
  else head.

(** The scan of [genericpath._splitext] over the characters between the
    last separator and the last dot: is one of them not a dot? *)
Fixpoint has_non_dot (l : str) : bool :=
  match l with
  | [] => false
  | c :: r => if bool_decide (c ≠ extsep) then true else has_non_dot r
  end.

(** [os.path.splitext(p)] *)
Definition splitext (p : str) : str * str :=
  let sepIndex := rfind sep p in
  let dotIndex := rfind extsep p in
  if bool_decide (sepIndex < dotIndex) then
    if has_non_dot (slice (sepIndex + 1) dotIndex p)
    then (slice_to dotIndex p, slice_from dotIndex p)
    else (p, [])
  else (p, []).

(** ** Exceptions *)

Inductive exn : Set :=
  | IndexError          (* match.group(1) on a pattern without groups *)
  | AttributeError      (* None.zfill *)
  | ReError             (* re.error: the pattern does not compile *)
  | FileNotFoundError
  | JSONDecodeError
  | UnicodeDecodeError  (* the bytes read are not UTF-8 *)
  | PermissionError.

Inductive result (A : Type) : Type :=
  | Ok (a : A)
  | Raise (e : exn).
Arguments Ok {A} a.
Arguments Raise {A} e.

(** Sequencing: an exception ends the computation. [x ← r; k] is stdpp's
    notation for it. *)
#[global] Instance result_bind : MBind result := λ A B k r,
  match r with
  | Ok a => k a
  | Raise e => Raise e
  end.

(** ** Match objects *)

(** A match object is its capture groups 1, 2, ...: [Some s] for a group
    that took part in the match, [None] for one that did not. *)
Record Match : Set := { groups : list (option str) }.

(** [m.group(1)] *)
Definition group1 (m : Match) : result (option str) :=
  match groups m with
  | [] => Raise IndexError
  | g :: _ => Ok g
  end.

(** ** A literal fragment of [re.search]

    On a pattern made of ordinary characters, or of ordinary characters
    inside one pair of parentheses, [re.search] is substring search; the
    parenthesised form has the literal as group 1. [lit_search] is that
    fragment and rejects every other pattern. *)

Definition special (c : N) : bool :=
  bool_decide (c ∈ lit ".^$*+?{}[]\|()").

Fixpoint contains (needle hay : str) : bool :=
  if bool_decide (needle `prefix_of` hay) then true
  else match hay with
       | [] => false
       | _ :: r => contains needle r
       end.

Definition plain (p : str) : bool := forallb (λ c, negb (special c)) p.

Definition lit_search (p s : str) : result (option Match) :=
  if plain p then
    Ok (if contains p s then Some {| groups := [] |} else None)
  else
    match p with
    | 40%N :: r =>
        match last r with
        | Some 41%N =>
            let body := removelast r in
            if plain body then
              Ok (if contains body s
                  then Some {| groups := [Some body] |} else None)
            else Raise ReError
        | _ => Raise ReError
        end
    | _ => Raise ReError
    end.

(** ** The directory tree *)

(** An entry of a listing: [Dir] when [os.path.isdir] holds of its path,
    [File] otherwise. *)
#[warnings="-register-all"]
Inductive entry : Set :=
  | File (name : str)
  | Dir (name : str) (listing : list entry).

Definition entry_name (e : entry) : str :=
  match e with
  | File n => n
  | Dir n _ => n
  end.

Definition is_file (e : entry) : bool :=
  match e with
  | File _ => true
  | Dir _ _ => false
  end.

(** ** Configuration *)

(** One element of [exam_type_rules] / [file_type_rules]:
    [rule["pattern"]] and [rule["type"]]. *)
Record Rule : Set := { rule_pattern : str; rule_type : str }.

(** The JSON document, with the four keys the code reads: the regexes
    are strings and the rules are lists of objects with the string members
    "pattern" and "type". A key that is absent is [None] (for the regexes)
    or the empty list (for the rules, which the code reads with the
    default [[]]). *)
Record Config : Set := {
  year_regex : option str;
  month_regex : option str;
  exam_type_rules : list Rule;
  file_type_rules : list Rule
}.

(** The document [{}]. *)
Definition empty_config : Config :=
  {| year_regex := None; month_regex := None;
     exam_type_rules := []; file_type_rules := [] |}.

(** [load_config]: [attempt] is the outcome of opening [config_path] and
    parsing it with [json.load]. *)
Definition load_config (attempt : result Config) : result Config :=
  match attempt with
  | Ok doc => Ok doc
  | Raise FileNotFoundError => Ok empty_config
  | Raise JSONDecodeError => Ok empty_config
  | Raise e => Raise e
  end.

(** ** The plan *)

Abbreviation RenamePair := (str * str)%type.
Abbreviation ConflictPair := (str * str)%type.

(** The three accumulators of [collect_rename_pairs], which are also the
    triple it returns. *)
Record Plan : Type := {
  rename_pairs : list RenamePair;
  conflict_files : list ConflictPair;
  existing_new_filenames : gset str
}.

Definition empty_plan : Plan :=
  {| rename_pairs := []; conflict_files := []; existing_new_filenames := ∅ |}.

(** The three updates the loop makes to its accumulators. *)

(** [rename_pairs.append(rename_info)] and
    [existing_new_filenames.add(os.path.basename(rename_info[1]))] *)
Definition add_rename (acc : Plan) (rename_info : RenamePair) : Plan :=
  {| rename_pairs := rename_pairs acc ++ [rename_info];
     conflict_files := conflict_files acc;
     existing_new_filenames :=
       existing_new_filenames acc ∪ {[ basename rename_info.2 ]} |}.

(** [conflict_files.append(conflict_info)] *)
Definition add_conflict (acc : Plan) (conflict_info : ConflictPair) : Plan :=
  {| rename_pairs := rename_pairs acc;
     conflict_files := conflict_files acc ++ [conflict_info];
     existing_new_filenames := existing_new_filenames acc |}.

(** The two [extend]s and the [update] after a recursive call. *)
Definition merge_sub (acc sub : Plan) : Plan :=
  {| rename_pairs := rename_pairs acc ++ rename_pairs sub;
     conflict_files := conflict_files acc ++ conflict_files sub;
     existing_new_filenames :=
       existing_new_filenames acc ∪ existing_new_filenames sub |}.

(** The target paths of a plan. *)
Definition targets (p : Plan) : list str := (rename_pairs p).*2.

(** ** Sample inputs *)

Definition rule (pattern type : string) : Rule :=
  {| rule_pattern := lit pattern; rule_type := lit type |}.

(** Year 2023, month 03; "exam" is category examA, "pdf" is type pdf. *)
Definition exam_config : Config :=
  {| year_regex := Some (lit "(2023)");
     month_regex := Some (lit "(03)");
     exam_type_rules := [rule "exam" "examA"; rule "quiz" "quizB"];
     file_type_rules := [rule "pdf" "pdf"] |}.

(** A category label with a path separator in it. *)
Definition slash_label_config : Config :=
  {| year_regex := Some (lit "(2023)");
     month_regex := None;
     exam_type_rules := [rule "x" "a/b"];
     file_type_rules := [] |}.

(** A file-type label with a path separator in it. *)
Definition slash_type_config : Config :=
  {| year_regex := Some (lit "(2024)");
     month_regex := None;
     exam_type_rules := [];
     file_type_rules := [rule "pdf" "doc/pdf"] |}.

(** A year pattern without a capture group. *)
Definition groupless_config : Config :=
  {| year_regex := Some (lit "2023");
     month_regex := None;
     exam_type_rules := [];
     file_type_rules := [] |}.

(** Two subdirectories that each hold a file x.pdf, and a file x.pdf
    beside them. *)
Definition twin_tree : list entry :=
  [Dir (lit "a") [File (lit "x.pdf")];
   Dir (lit "b") [File (lit "x.pdf")];
   File (lit "x.pdf")].

(** The two files of the specification's example, a subdirectory with a
    third one, and a file without a year. *)
Definition exam_tree : list entry :=
  [File (lit "2023_03_examA.pdf");
   Dir (lit "old") [File (lit "2023_03_exam_draft.pdf")];
   File (lit "2023_03_examB.pdf");
   File (lit "notes.txt")].

(** ** Vocabulary of the statements *)

Definition slash_free (s : str) : Prop := sep ∉ s.

#[global] Instance slash_free_dec s : Decision (slash_free s).
Proof. unfold slash_free. apply _. Defined.

(** What [os.path.join] puts in front of a relative second argument. *)
Definition dirprefix (a : str) : str :=
  if bool_decide (a = []) || endswith sep a then a else a ++ [sep].

(** A name as [os.listdir] returns it: not empty, no separator. *)
Definition valid_name (n : str) : bool :=
  bool_decide (n ≠ []) && bool_decide (slash_free n).

(** A directory tree as a file system holds it: valid names, and no two
    entries of one directory with the same name. *)
Fixpoint well_formed (e : entry) : bool :=
  match e with
  | File n => valid_name n
  | Dir n l =>
      valid_name n && forallb well_formed l
      && bool_decide (NoDup (entry_name <$> l))
  end.

Definition listing_ok (l : list entry) : bool :=
  forallb well_formed l && bool_decide (NoDup (entry_name <$> l)).

(** The number of regular files a run enumerates. *)
Fixpoint count_files (recursive : bool) (e : entry) : nat :=
  match e with
  | File _ => 1
  | Dir _ l =>
      if recursive then
        (fix total (l : list entry) : nat :=
           match l with
           | [] => 0
           | x :: r => count_files true x + total r
           end) l
      else 0
  end%nat.

Definition count_listing (recursive : bool) (l : list entry) : nat :=
  foldr (λ e n, count_files recursive e + n)%nat 0%nat l.

(** [q] holds of the name of every regular file of the tree. *)
Fixpoint all_files (q : str → bool) (e : entry) : bool :=
  match e with
  | File n => q n
  | Dir _ l => forallb (all_files q) l
  end.

(** The number of entries of a plan: pairs and conflicts. *)
Definition entries (acc : Plan) : nat :=
  (length (rename_pairs acc) + length (conflict_files acc))%nat.

(** Every planned target has its base name among the claimed names. *)
Definition claims_recorded (acc : Plan) : Prop :=
  ∀ p, p ∈ rename_pairs acc → basename p.2 ∈ existing_new_filenames acc.

(** The accumulators only grow: pairs and conflicts are appended, names
    are added. *)
Definition grows (acc acc' : Plan) : Prop :=
  rename_pairs acc `prefix_of` rename_pairs acc'
  ∧ conflict_files acc `prefix_of` conflict_files acc'
  ∧ existing_new_filenames acc ⊆ existing_new_filenames acc'.

(** The shape of the targets planned so far in [directory], after the
    entries named [seen]: no target twice; a target is the directory
    prefix followed either by a claimed separator-free name (a file of
    this directory) or by the name of a subdirectory already visited and
    a path below it. *)
Definition plan_inv (directory : str) (seen : list str) (acc : Plan) : Prop :=
  NoDup (targets acc)
  ∧ ∀ t, t ∈ targets acc →
      ∃ rel, t = dirprefix directory ++ rel
        ∧ ((slash_free rel ∧ rel ∈ existing_new_filenames acc)
           ∨ (∃ n rest, n ∈ seen ∧ slash_free n ∧ rel = n ++ sep :: rest)).

(** Left padding with zeros, after the words of the specification. *)
Definition pad_left_zero (width : nat) (s : str) : str :=
  replicate (width - length s) zero_digit ++ s.

Section Rename.

(** [re.search(pattern, string)]: [Ok None] when nothing matches,
    [Ok (Some m)] with the match object, [Raise] when the pattern does not
    compile. *)
Variable re_search : str → str → result (option Match).

(** The guarded search of a [year_regex] / [month_regex]:
    [m = None; r = config.get(key); if r: m = re.search(r, filename)]. *)
Definition search_if_set (regex : option str) (filename : str)
  : result (option Match) :=
  match regex with
  | Some r => if bool_decide (r ≠ []) then re_search r filename else Ok None
  | None => Ok None
  end.

(** The rule loop: the label of the first rule that matches, else the
    label the variable was initialised with. *)
Fixpoint first_rule (rules : list Rule) (filename : str) (default : str)
  : result str :=
  match rules with
  | [] => Ok default
  | rule :: rest =>
      m ← re_search (rule_pattern rule) filename;
      match m with
      | Some _ => Ok (rule_type rule)
      | None => first_rule rest filename default
      end
  end.

Definition extract_file_info (filename : str) (config : Config)
  : result (option Match * option Match * str * str) :=
  year_match ← search_if_set (year_regex config) filename;
  month_match ← search_if_set (month_regex config) filename;
  exam_type ← first_rule (exam_type_rules config) filename unknown;
  file_type ← first_rule (file_type_rules config) filename unknown;
  Ok (year_match, month_match, exam_type, file_type).

(** [f"{year}"] for the value [group(1)] returned. *)
Definition format_value (v : option str) : str :=
  match v with
  | Some s => s
  | None => lit "None"
  end.

(** [v.zfill(2)] for the value [group(1)] returned. *)
Definition zfill_value (v : option str) : result str :=
  match v with
  | Some s => Ok (zfill 2 s)
  | None => Raise AttributeError
  end.

Definition generate_new_filename (filename : str)
    (year_match month_match : option Match) (exam_type file_type : str)
  : result str :=
  let file_extension := (splitext filename).2 in
  match year_match with
  | Some ym =>
      year ← group1 ym;
      match month_match with
      | Some mm =>
          g ← group1 mm;
          month ← zfill_value g;
          Ok (format_value year ++ [extsep] ++ month ++ [extsep]
                ++ exam_type ++ [extsep] ++ file_type ++ file_extension)
      | None =>
          Ok (format_value year ++ [extsep] ++ exam_type ++ [extsep]
                ++ file_type ++ file_extension)
      end
  | None => Ok filename
  end.

(** [_process_file]: [item] is the entry found at
    [os.path.join(directory, filename)]. *)
Definition _process_file (directory : str) (item : entry) (config : Config)
    (existing_new_filenames : gset str)
  : result (option RenamePair * option ConflictPair) :=
  match item with
  | Dir _ _ => Ok (None, None)
  | File filename =>
      info ← extract_file_info filename config;
      let '(year_match, month_match, exam_type, file_type) := info in
      new_filename ← generate_new_filename filename year_match month_match
                       exam_type file_type;
      if decide (new_filename ∈ existing_new_filenames) then
        Ok (None, Some (filename, new_filename))
      else
        Ok (Some (join directory filename, join directory new_filename),
            None)
  end.

(** One iteration of the [for item in os.listdir(directory)] loop. *)
Fixpoint process_item (directory : str) (recursive : bool) (config : Config)
    (item : entry) (acc : Plan) {struct item} : result Plan :=
  match item with
  | Dir name listing =>
      if recursive then
        let item_path := join directory name in
        sub ← (fix loop (items : list entry) (acc' : Plan) : result Plan :=
                 match items with
                 | [] => Ok acc'
                 | it :: rest =>
                     acc'' ← process_item item_path true config it acc';
                     loop rest acc''
                 end) listing empty_plan;
        Ok (merge_sub acc sub)
      else Ok acc
  | File name =>
      r ← _process_file directory item config (existing_new_filenames acc);
      match r with
      | (Some rename_info, _) => Ok (add_rename acc rename_info)
      | (None, Some conflict_info) => Ok (add_conflict acc conflict_info)
      | (None, None) => Ok acc
      end
  end.

(** The loop from given accumulators. *)
Fixpoint collect_items (directory : str) (recursive : bool) (config : Config)
    (items : list entry) (acc : Plan) : result Plan :=
  match items with
  | [] => Ok acc
  | it :: rest =>
      acc' ← process_item directory recursive config it acc;
      collect_items directory recursive config rest acc'
  end.

(** [collect_rename_pairs(directory, recursive, config)], where [items] is
    the listing of [directory]. *)
Definition collect_rename_pairs (directory : str) (recursive : bool)
    (config : Config) (items : list entry) : result Plan :=
  collect_items directory recursive config items empty_plan.

(** The candidate name of a file: the two calls [_process_file] makes
    before it looks at the claimed names. *)
Definition candidate_name (config : Config) (filename : str) : result str :=
  info ← extract_file_info filename config;
  generate_new_filename filename info.1.1.1 info.1.1.2 info.1.2 info.2.

(** No candidate name of a file of the tree contains a separator. *)
Definition plain_candidates (config : Config) : entry → bool :=
  all_files (λ n, match candidate_name config n with
                  | Ok c => bool_decide (slash_free c)
                  | Raise _ => true
                  end).


(** [label] is what a first-match scan of [rules] gives on [filename]:
    the label of the first rule whose pattern matches, and the sentinel
    when none does. *)
Definition first_match_label (rules : list Rule) (filename label : str)
  : Prop :=
  (∃ pre rule post m,
      rules = pre ++ rule :: post
      ∧ Forall (λ r, re_search (rule_pattern r) filename = Ok None) pre
      ∧ re_search (rule_pattern rule) filename = Ok (Some m)
      ∧ label = rule_type rule)
  ∨ (Forall (λ r, re_search (rule_pattern r) filename = Ok None) rules
     ∧ label = unknown).

(** The patterns a classification of [filename] may compile. *)
Definition patterns_of (config : Config) : list str :=
  (match year_regex config with Some r => [r] | None => [] end)
  ++ (match month_regex config with Some r => [r] | None => [] end)
  ++ (rule_pattern <$> exam_type_rules config)
  ++ (rule_pattern <$> file_type_rules config).

(** The match objects for which [generate_new_filename] has what it
    reads: group 1 of the year match exists, and group 1 of the month
    match, when there is one, is a string. *)
Definition name_ready (year_match month_match : option Match) : Prop :=
  match year_match with
  | None => True
  | Some ym =>
      groups ym ≠ []
      ∧ match month_match with
        | None => True
        | Some mm => ∃ s rest, groups mm = Some s :: rest
        end
  end.

(** ** Strings and paths *)

Lemma rfind_lower c s : -1 ≤ rfind c s.
Proof.
  induction s as [|x r IH]; simpl; [lia|].
  repeat case_bool_decide; lia.
Qed.

Lemma rfind_absent c s : c ∉ s → rfind c s = -1.
Proof.
  induction s as [|x r IH]; simpl; [done|].
  intros [Hx Hr]%not_elem_of_cons. rewrite (IH Hr).
  rewrite bool_decide_eq_false_2 by lia.
  by rewrite bool_decide_eq_false_2 by congruence.
Qed.

Lemma rfind_last c a b : c ∉ b → rfind c (a ++ c :: b) = Z.of_nat (length a).
Proof.
  intros Hb. induction a as [|x a IH]; simpl.
  - rewrite (rfind_absent _ _ Hb).
    rewrite bool_decide_eq_false_2 by lia.
    by rewrite bool_decide_eq_true_2.
  - rewrite IH. rewrite bool_decide_eq_true_2 by lia. lia.
Qed.

Lemma slash_free_startswith s : slash_free s → startswith sep s = false.
Proof.
  destruct s as [|x r]; [done|]. intros H. simpl.
  apply bool_decide_eq_false_2. intros ->. apply H. left.
Qed.

Lemma endswith_snoc c s : endswith c s = true → ∃ s', s = s' ++ [c].
Proof.
  unfold endswith. destruct (last s) as [x|] eqn:E; [|done].
  intros ->%bool_decide_eq_true. by apply last_Some in E.
Qed.

Lemma dirprefix_shape a : dirprefix a = [] ∨ ∃ a', dirprefix a = a' ++ [sep].
Proof.
  unfold dirprefix. case_bool_decide as Ha; simpl.
  - by left.
  - destruct (endswith sep a) eqn:E; right.
    + by apply endswith_snoc.
    + by exists a.
Qed.

Lemma join_relative a b : startswith sep b = false → join a b = dirprefix a ++ b.
Proof.
  intros Hb. unfold join, dirprefix. rewrite Hb.
  destruct (bool_decide (a = []) || endswith sep a); [done|].
  by rewrite <- app_assoc.
Qed.

Lemma join_slash_free a b : slash_free b → join a b = dirprefix a ++ b.
Proof. intros. by apply join_relative, slash_free_startswith. Qed.

(** The last separator of [pre ++ n], for [pre] empty or ending in a
    separator and [n] without one, is the end of [pre]. *)
Lemma rfind_after_prefix pre n :
  slash_free n → pre = [] ∨ (∃ p, pre = p ++ [sep]) →
  rfind sep (pre ++ n) + 1 = Z.of_nat (length pre).
Proof.
  intros Hn [->|[p ->]]; simpl.
  - by rewrite rfind_absent.
  - rewrite <- app_assoc. simpl. rewrite rfind_last by done.
    rewrite length_app. simpl. lia.
Qed.

Lemma basename_after_prefix pre n :
  slash_free n → pre = [] ∨ (∃ p, pre = p ++ [sep]) →
  basename (pre ++ n) = n.
Proof.
  intros Hn Hpre. unfold basename, slice_from.
  rewrite rfind_after_prefix by done.
  rewrite Nat2Z.id. by rewrite drop_app_length.
Qed.

Lemma basename_join d n : slash_free n → basename (join d n) = n.
Proof.
  intros Hn. rewrite join_slash_free by done.
  apply basename_after_prefix; [done | apply dirprefix_shape].
Qed.

Lemma basename_last_sep pre n : slash_free n → basename (pre ++ sep :: n) = n.
Proof.
  intros Hn. unfold basename, slice_from. rewrite rfind_last by done.
  replace (Z.to_nat (Z.of_nat (length pre) + 1)) with (length (pre ++ [sep])).
  2:{ rewrite length_app. simpl. lia. }
  replace (pre ++ sep :: n) with ((pre ++ [sep]) ++ n)
    by (by rewrite <- app_assoc).
  by rewrite drop_app_length.
Qed.

(** The base name of a joined path is the base name of its second
    component. *)
Lemma basename_join_any d c : basename (join d c) = basename c.
Proof.
  destruct (decide (sep ∈ c)) as [Hin|Hout].
  - apply list_elem_of_split_r in Hin as (l1 & l2 & -> & Hl2).
    rewrite (basename_last_sep l1 l2 Hl2). unfold join.
    destruct (startswith sep _); [by apply basename_last_sep|].
    destruct (_ || _).
    + rewrite app_assoc. by apply basename_last_sep.
    + rewrite (app_comm_cons l1), app_assoc. by apply basename_last_sep.
  - rewrite basename_join by done. symmetry.
    apply (basename_after_prefix [] c); [done | by left].
Qed.

(** The parent directory of [pre ++ n] is decided by [pre] alone. *)
Lemma dirname_after_prefix pre n n' :
  slash_free n → slash_free n' → pre = [] ∨ (∃ p, pre = p ++ [sep]) →
  dirname (pre ++ n) = dirname (pre ++ n').
Proof.
  intros Hn Hn' Hpre. unfold dirname, slice_to.
  rewrite !rfind_after_prefix by done.
  rewrite Nat2Z.id. by rewrite !take_app_length.
Qed.

Lemma dirname_join d n n' :
  slash_free n → slash_free n' → dirname (join d n) = dirname (join d n').
Proof.
  intros Hn Hn'. rewrite !join_slash_free by done.
  apply dirname_after_prefix; [done | done | apply dirprefix_shape].
Qed.

(** Two paths that start with separator-free names and a separator
    agree on the name. *)
Lemma first_component_inj n n' r r' :
  slash_free n → slash_free n' → n ++ sep :: r = n' ++ sep :: r' → n = n'.
Proof.
  revert n'. induction n as [|x n IH]; intros [|x' n'] Hn Hn' E;
    simpl in E.
  - done.
  - injection E as <- _. exfalso. apply Hn'. left.
  - injection E as -> _. exfalso. apply Hn. left.
  - injection E as <- E. f_equal. apply IH; [| |done].
    + intros ?. apply Hn. by right.
    + intros ?. apply Hn'. by right.
Qed.

Lemma valid_name_spec n : valid_name n = true → n ≠ [] ∧ slash_free n.
Proof.
  unfold valid_name. intros [H1 H2]%andb_true_iff.
  by apply bool_decide_eq_true in H1, H2.
Qed.

(** The prefix of a subdirectory extends the prefix of its parent by
    the subdirectory name and a separator. *)
Lemma dirprefix_join d n :
  n ≠ [] → slash_free n → dirprefix (join d n) = dirprefix d ++ n ++ [sep].
Proof.
  intros Hne Hn. rewrite join_slash_free by done.
  unfold dirprefix at 1.
  destruct (exists_last Hne) as (n0 & c & ->).
  assert (c ≠ sep) as Hc.
  { intros ->. apply Hn. apply elem_of_app. right. left. }
  rewrite bool_decide_eq_false_2.
  2:{ intros E. apply app_eq_nil in E as [_ E]. by destruct n0. }
  unfold endswith. rewrite !app_assoc, last_snoc.
  rewrite bool_decide_eq_false_2 by done. simpl.
  by rewrite <- !app_assoc.
Qed.

(** [zfill] is left padding, except on a lone sign. *)
Lemma zfill_2_pad s :
  s ≠ [43%N] → s ≠ [45%N] → zfill 2 s = pad_left_zero 2 s.
Proof.
  intros H1 H2. unfold zfill, pad_left_zero.
  case_decide as Hl.
  - by replace (2 - length s)%nat with 0%nat by lia.
  - destruct s as [|c [|c' r]]; simpl in *; [done | | lia].
    unfold is_sign. repeat case_bool_decide; simpl; congruence.
Qed.

Lemma splitext_suffix p : (splitext p).2 `suffix_of` p.
Proof.
  unfold splitext. case_bool_decide; [|apply suffix_nil].
  destruct (has_non_dot _); [|apply suffix_nil].
  simpl. apply suffix_drop.
Qed.

(** ** The error monad *)

Lemma bind_Ok {A B} (r : result A) (k : A → result B) b :
  r ≫= k = Ok b ↔ ∃ a, r = Ok a ∧ k a = Ok b.
Proof.
  destruct r as [a|e]; simpl; split.
  - intros. by exists a.
  - by intros (? & [= <-] & ?).
  - done.
  - by intros (? & ? & ?).
Qed.

Lemma bind_Raise {A B} (r : result A) (k : A → result B) e :
  r ≫= k = Raise e ↔ r = Raise e ∨ ∃ a, r = Ok a ∧ k a = Raise e.
Proof.
  destruct r as [a|e']; simpl; split.
  - intros. right. by exists a.
  - by intros [?|(? & [= <-] & ?)].
  - intros [= ->]. by left.
  - by intros [[= ->]|(? & ? & ?)].
Qed.

(** ** The classifier *)

Lemma search_if_set_Raise regex filename e :
  search_if_set regex filename = Raise e →
  ∃ r, regex = Some r ∧ re_search r filename = Raise e.
Proof.
  destruct regex as [r|]; simpl; [|done].
  case_bool_decide; [|done]. intros. by exists r.
Qed.

Lemma first_rule_outcome rules filename :
  match first_rule rules filename unknown with
  | Ok label => first_match_label rules filename label
  | Raise e =>
      ∃ r, r ∈ rules ∧ re_search (rule_pattern r) filename = Raise e
  end.
Proof.
  induction rules as [|rule rest IH]; simpl.
  - right. by split.
  - destruct (re_search (rule_pattern rule) filename) as [[m|]|e] eqn:E;
      simpl.
    + left. exists [], rule, rest, m. by repeat split.
    + destruct (first_rule rest filename unknown) as [label|e].
      * destruct IH as [(pre & r & post & m & -> & Hpre & Hr & ->)|[Hall ->]].
        -- left. exists (rule :: pre), r, post, m.
           repeat split; [by constructor | done].
        -- right. split; [by constructor | done].
      * destruct IH as (r & Hin & Hr). exists r. split; [by right | done].
    + exists rule. split; [left | done].
Qed.

Lemma extract_file_info_empty filename :
  extract_file_info filename empty_config = Ok (None, None, unknown, unknown).
Proof. reflexivity. Qed.

(** ** The candidate name *)

Lemma generate_new_filename_ready filename ym mm exam_type file_type :
  (∃ s, generate_new_filename filename ym mm exam_type file_type = Ok s)
  ↔ name_ready ym mm.
Proof.
  unfold generate_new_filename, name_ready, group1.
  destruct ym as [[gy]|]; simpl; [|split; [done | by eexists]].
  destruct gy as [|y gy]; simpl.
  { split; [by intros [? ?] | by intros [? _]]. }
  destruct mm as [[gm]|]; simpl; [|split; [done | by eexists]].
  destruct gm as [|[m|] gm]; simpl.
  - split; [by intros [? ?] | by intros [_ (? & ? & ?)]].
  - split; [|by eexists]. intros _. split; [done | by eauto].
  - split; [by intros [? ?] | by intros [_ (? & ? & ?)]].
Qed.


(** ** One file *)

Lemma process_file_candidate directory filename config existing :
  _process_file directory (File filename) config existing =
    (new_filename ← candidate_name config filename;
     Ok (if decide (new_filename ∈ existing)
         then (None, Some (filename, new_filename))
         else (Some (join directory filename, join directory new_filename),
               None))).
Proof.
  unfold _process_file, candidate_name.
  destruct (extract_file_info filename config) as [[[[y m] e] t]|]; simpl;
    [|done].
  destruct (generate_new_filename filename y m e t); simpl; [|done].
  by case_decide.
Qed.

Lemma process_item_file directory recursive config filename acc :
  process_item directory recursive config (File filename) acc =
    (new_filename ← candidate_name config filename;
     Ok (if decide (new_filename ∈ existing_new_filenames acc)
         then add_conflict acc (filename, new_filename)
         else add_rename acc (join directory filename,
                              join directory new_filename))).
Proof.
  unfold process_item. rewrite process_file_candidate.
  destruct (candidate_name config filename); simpl; [|done].
  by case_decide.
Qed.

Lemma process_item_dir directory config name listing acc :
  process_item directory true config (Dir name listing) acc =
    (sub ← collect_rename_pairs (join directory name) true config listing;
     Ok (merge_sub acc sub)).
Proof.
  unfold collect_rename_pairs. simpl.
  generalize empty_plan. intros acc0. f_equal.
  revert acc0. induction listing as [|it rest IH]; intros acc0; simpl;
    [done|].
  destruct (process_item _ true config it acc0); simpl; [apply IH | done].
Qed.

Lemma process_item_skip directory config name listing acc :
  process_item directory false config (Dir name listing) acc = Ok acc.
Proof. reflexivity. Qed.

Lemma entry_nested_ind (P : entry → Prop) :
  (∀ n, P (File n)) →
  (∀ n l, Forall P l → P (Dir n l)) →
  ∀ e, P e.
Proof.
  intros HF HD. fix IH 1. intros [n|n l]; [apply HF|].
  apply HD. induction l as [|x l IHl]; constructor; [apply IH | apply IHl].
Qed.

(** ** The loop *)

Lemma collect_items_cons directory recursive config x l acc :
  collect_items directory recursive config (x :: l) acc =
    (acc1 ← process_item directory recursive config x acc;
     collect_items directory recursive config l acc1).
Proof. reflexivity. Qed.

Lemma collect_items_app directory recursive config l1 l2 acc :
  collect_items directory recursive config (l1 ++ l2) acc =
    (acc1 ← collect_items directory recursive config l1 acc;
     collect_items directory recursive config l2 acc1).
Proof.
  revert acc. induction l1 as [|x l1 IH]; intros acc; simpl; [done|].
  destruct (process_item directory recursive config x acc); simpl;
    [apply IH | done].
Qed.




Lemma grows_refl acc : grows acc acc.
Proof. by split; [|split]. Qed.

Lemma grows_trans acc1 acc2 acc3 :
  grows acc1 acc2 → grows acc2 acc3 → grows acc1 acc3.
Proof.
  intros (? & ? & ?) (? & ? & ?).
  split; [|split]; [by etrans.. | set_solver].
Qed.

Lemma grows_add_rename acc p : grows acc (add_rename acc p).
Proof.
  split; [|split]; simpl; [by apply prefix_app_r | done | set_solver].
Qed.

Lemma grows_add_conflict acc c : grows acc (add_conflict acc c).
Proof. split; [|split]; simpl; [done | by apply prefix_app_r | done]. Qed.

Lemma grows_merge_sub acc sub : grows acc (merge_sub acc sub).
Proof.
  split; [|split]; simpl; [by apply prefix_app_r.. | set_solver].
Qed.

Lemma claims_recorded_empty : claims_recorded empty_plan.
Proof. intros p Hp. simpl in Hp. by apply elem_of_nil in Hp. Qed.

Lemma claims_recorded_merge acc sub :
  claims_recorded acc → claims_recorded sub →
  claims_recorded (merge_sub acc sub).
Proof.
  intros Ha Hs p [Hp|Hp]%elem_of_app; simpl; apply elem_of_union;
    [left; by apply Ha | right; by apply Hs].
Qed.

(** Each iteration appends to the accumulators, and keeps the base name
    of every planned target among the claimed names. *)
Lemma process_item_grows config e :
  ∀ directory recursive acc acc',
    process_item directory recursive config e acc = Ok acc' →
    grows acc acc' ∧ (claims_recorded acc → claims_recorded acc').
Proof.
  induction e as [n|n l IH] using entry_nested_ind;
    intros directory recursive acc acc'.
  - rewrite process_item_file.
    intros (c & _ & Hstep)%bind_Ok. revert Hstep.
    case_decide; intros [= <-].
    + split; [apply grows_add_conflict | done].
    + split; [apply grows_add_rename|].
      intros Hrec p [Hp|Hp]%elem_of_app; simpl; apply elem_of_union.
      * left. by apply Hrec.
      * right. apply list_elem_of_singleton in Hp as ->.
        by apply elem_of_singleton.
  - destruct recursive.
    2:{ intros [= <-]. split; [apply grows_refl | done]. }
    rewrite process_item_dir. unfold collect_rename_pairs.
    intros (sub & Hsub & [= <-])%bind_Ok.
    split; [apply grows_merge_sub|]. intros Hrec.
    apply claims_recorded_merge; [done|].
    revert Hsub. generalize claims_recorded_empty.
    generalize empty_plan. generalize (join directory n).
    intros d acc0. revert acc0.
    induction IH as [|x l Hx _ IHl]; intros acc0 H0; simpl.
    { by intros [= <-]. }
    intros (acc1 & H1 & Hrest)%bind_Ok.
    apply (IHl acc1); [|done]. by eapply Hx.
Qed.

Lemma collect_items_grows config l :
  ∀ directory recursive acc acc',
    collect_items directory recursive config l acc = Ok acc' →
    grows acc acc' ∧ (claims_recorded acc → claims_recorded acc').
Proof.
  induction l as [|x l IH]; intros directory recursive acc acc'; simpl.
  { intros [= <-]. split; [apply grows_refl | done]. }
  intros (acc1 & H1 & Hrest)%bind_Ok.
  apply process_item_grows in H1 as [Hg1 Hr1].
  apply IH in Hrest as [Hg Hr].
  split; [by eapply grows_trans | auto].
Qed.

Lemma collect_rename_pairs_recorded directory recursive config l plan :
  collect_rename_pairs directory recursive config l = Ok plan →
  claims_recorded plan.
Proof.
  intros H. apply collect_items_grows in H as [_ H].
  apply H, claims_recorded_empty.
Qed.

(** Each regular file enumerated adds one entry to the pairs or to the
    conflicts. *)
Lemma count_files_dir n l :
  count_files true (Dir n l) = count_listing true l.
Proof.
  simpl. induction l as [|x l IH]; simpl; [done|]. by rewrite IH.
Qed.

Lemma process_item_count config e :
  ∀ directory recursive acc acc',
    process_item directory recursive config e acc = Ok acc' →
    entries acc' = (entries acc + count_files recursive e)%nat.
Proof.
  unfold entries.
  induction e as [n|n l IH] using entry_nested_ind;
    intros directory recursive acc acc'.
  - rewrite process_item_file.
    intros (c & _ & Hstep)%bind_Ok. revert Hstep.
    case_decide; intros [= <-]; simpl; rewrite length_app; simpl; lia.
  - destruct recursive.
    2:{ intros [= <-]. simpl. lia. }
    rewrite process_item_dir, count_files_dir. unfold collect_rename_pairs.
    intros (sub & Hsub & [= <-])%bind_Ok. simpl. rewrite !length_app.
    cut (length (rename_pairs sub) + length (conflict_files sub)
         = count_listing true l)%nat; [lia|].
    change (length (rename_pairs sub) + length (conflict_files sub)
            = length (rename_pairs empty_plan)
              + length (conflict_files empty_plan)
              + count_listing true l)%nat.
    revert Hsub. generalize empty_plan. generalize (join directory n).
    intros d acc0. revert acc0.
    induction IH as [|x l Hx _ IHl]; intros acc0; simpl.
    { intros [= <-]. lia. }
    intros (acc1 & H1 & Hrest)%bind_Ok.
    apply Hx in H1. apply IHl in Hrest. lia.
Qed.

Lemma collect_items_count config l :
  ∀ directory recursive acc acc',
    collect_items directory recursive config l acc = Ok acc' →
    entries acc' = (entries acc + count_listing recursive l)%nat.
Proof.
  induction l as [|x l IH]; intros directory recursive acc acc'; simpl.
  { intros [= <-]. lia. }
  intros (acc1 & H1 & Hrest)%bind_Ok.
  apply process_item_count in H1. apply IH in Hrest. lia.
Qed.

(** ** No target twice *)

Lemma plan_inv_empty directory seen : plan_inv directory seen empty_plan.
Proof.
  split; simpl; [constructor|]. intros t Ht. by apply elem_of_nil in Ht.
Qed.

Lemma plan_inv_seen directory seen seen' acc :
  seen ⊆ seen' → plan_inv directory seen acc → plan_inv directory seen' acc.
Proof.
  intros Hsub [Hnd Hshape]. split; [done|]. intros t Ht.
  destruct (Hshape t Ht) as (rel & -> & [Hrel|(n & rest & Hn & Hsf & ->)]).
  - exists rel. split; [done | by left].
  - eexists. split; [done|]. right. exists n, rest. split; [auto | done].
Qed.

Lemma targets_add_rename acc p :
  targets (add_rename acc p) = targets acc ++ [p.2].
Proof. unfold targets. simpl. by rewrite fmap_app. Qed.

Lemma targets_merge_sub acc sub :
  targets (merge_sub acc sub) = targets acc ++ targets sub.
Proof. unfold targets. simpl. by rewrite fmap_app. Qed.

(** A file that is accepted keeps the shape: its candidate name was not
    claimed, so its target is new. *)
Lemma plan_inv_add_rename directory seen acc source c :
  slash_free c → c ∉ existing_new_filenames acc →
  plan_inv directory seen acc →
  plan_inv directory seen (add_rename acc (source, join directory c)).
Proof.
  intros Hc Hnew [Hnd Hshape]. rewrite join_slash_free by done.
  split.
  - rewrite targets_add_rename. simpl. apply NoDup_app.
    split; [done|]. split; [|apply NoDup_singleton].
    intros t Ht ->%list_elem_of_singleton.
    destruct (Hshape _ Ht)
      as (rel & E & [[_ Hrel]|(n & rest & _ & _ & ->)]);
      apply app_inv_head in E; subst.
    + done.
    + apply Hc. apply elem_of_app. right. left.
  - intros t. rewrite targets_add_rename. simpl.
    intros [Ht| ->%list_elem_of_singleton]%elem_of_app.
    + destruct (Hshape t Ht)
        as (rel & -> & [[Hsf Hrel]|(n & rest & Hn & Hsf & ->)]).
      * exists rel. split; [done|]. left. split; [done|].
        apply elem_of_union. by left.
      * eexists. split; [done|]. right. by exists n, rest.
    + exists c. split; [done|]. left. split; [done|].
      apply elem_of_union. right. apply elem_of_singleton.
      symmetry. by apply basename_after_prefix, dirprefix_shape.
Qed.

(** A subdirectory whose name was not seen keeps the shape: every
    target of its plan lies below its own prefix. *)
Lemma plan_inv_merge_sub directory seen seen' acc n sub :
  n ≠ [] → slash_free n → n ∉ seen →
  plan_inv directory seen acc →
  plan_inv (join directory n) seen' sub →
  plan_inv directory (n :: seen) (merge_sub acc sub).
Proof.
  intros Hne Hn Hfresh [Hnd Hshape] [Hnd' Hshape'].
  assert (∀ t, t ∈ targets sub →
            ∃ rest, t = dirprefix directory ++ n ++ sep :: rest) as Hbelow.
  { intros t Ht. destruct (Hshape' t Ht) as (rel & -> & _).
    exists rel. rewrite dirprefix_join by done.
    by rewrite <- !app_assoc. }
  split.
  - rewrite targets_merge_sub. apply NoDup_app.
    split; [done|]. split; [|done].
    intros t Ht Ht'. destruct (Hbelow t Ht') as (rest' & E).
    destruct (Hshape t Ht)
      as (rel & E' & [[Hsf _]|(n0 & rest & Hn0 & Hsf & ->)]);
      rewrite E in E'; apply app_inv_head in E'.
    + apply Hsf. rewrite <- E'. apply elem_of_app. right. left.
    + apply first_component_inj in E'; [|done..]. by subst.
  - intros t. rewrite targets_merge_sub. intros [Ht|Ht]%elem_of_app.
    + destruct (Hshape t Ht)
        as (rel & -> & [[Hsf Hrel]|(n0 & rest & Hn0 & Hsf & ->)]).
      * exists rel. split; [done|]. left. split; [done|].
        simpl. apply elem_of_union. by left.
      * eexists. split; [done|]. right. exists n0, rest.
        split; [by right | done].
    + destruct (Hbelow t Ht) as (rest & ->).
      eexists. split; [done|]. right. exists n, rest.
      split; [left | done].
Qed.

(** The loop keeps the shape when each of its iterations does. *)
Lemma collect_items_inv config l :
  Forall (λ e, ∀ directory recursive seen acc acc',
            entry_name e ∉ seen → plan_inv directory seen acc →
            process_item directory recursive config e acc = Ok acc' →
            plan_inv directory (entry_name e :: seen) acc') l →
  NoDup (entry_name <$> l) →
  ∀ directory recursive seen acc acc',
    (∀ n, n ∈ entry_name <$> l → n ∉ seen) →
    plan_inv directory seen acc →
    collect_items directory recursive config l acc = Ok acc' →
    ∃ seen', plan_inv directory seen' acc'.
Proof.
  induction 1 as [|x l Hx _ IHl]; intros Hnd directory recursive seen
    acc acc' Hseen Hinv; simpl.
  { intros [= <-]. by exists seen. }
  intros (acc1 & H1 & Hrest)%bind_Ok.
  rewrite fmap_cons in Hnd. apply NoDup_cons in Hnd as [Hx' Hnd].
  eapply (IHl Hnd directory recursive (entry_name x :: seen));
    [| |exact Hrest].
  - intros n Hin [->|Hn]%elem_of_cons; [done|].
    eapply Hseen; [|exact Hn]. rewrite fmap_cons. by right.
  - eapply Hx; [|done..]. apply Hseen. rewrite fmap_cons. left.
Qed.

Lemma process_item_inv config e :
  well_formed e = true → plain_candidates config e = true →
  ∀ directory recursive seen acc acc',
    entry_name e ∉ seen → plan_inv directory seen acc →
    process_item directory recursive config e acc = Ok acc' →
    plan_inv directory (entry_name e :: seen) acc'.
Proof.
  induction e as [n|n l IH] using entry_nested_ind;
    intros Hwf Hplain directory recursive seen acc acc' Hfresh Hinv.
  - rewrite process_item_file.
    intros (c & Hc & Hstep)%bind_Ok. revert Hstep.
    unfold plain_candidates in Hplain. simpl in Hplain.
    rewrite Hc in Hplain. apply bool_decide_eq_true in Hplain.
    case_decide; intros [= <-].
    + eapply plan_inv_seen; [|exact Hinv]. set_solver.
    + apply plan_inv_add_rename; [done..|].
      eapply plan_inv_seen; [|exact Hinv]. set_solver.
  - simpl in Hwf.
    apply andb_true_iff in Hwf as [[Hname Hwf]%andb_true_iff Hnd].
    apply valid_name_spec in Hname as [Hne Hn].
    apply bool_decide_eq_true in Hnd.
    destruct recursive.
    2:{ intros [= <-]. eapply plan_inv_seen; [|exact Hinv]. set_solver. }
    rewrite process_item_dir. unfold collect_rename_pairs.
    intros (sub & Hsub & [= <-])%bind_Ok. simpl.
    assert (∃ seen', plan_inv (join directory n) seen' sub) as [seen' ?].
    { eapply (collect_items_inv config l); [|done| |apply plan_inv_empty|
        exact Hsub].
      - unfold plain_candidates in Hplain. simpl in Hplain.
        clear Hsub Hnd.
        induction IH as [|x l Hx _ IHl]; constructor.
        + simpl in Hwf, Hplain.
          apply andb_true_iff in Hwf as [? _].
          apply andb_true_iff in Hplain as [? _].
          by apply Hx.
        + simpl in Hwf, Hplain.
          apply andb_true_iff in Hwf as [_ ?].
          apply andb_true_iff in Hplain as [_ ?].
          by apply IHl.
      - intros ? _ Hnil. by apply elem_of_nil in Hnil. }
    by eapply plan_inv_merge_sub.
Qed.

Lemma collect_rename_pairs_inv directory recursive config l plan :
  listing_ok l = true →
  forallb (plain_candidates config) l = true →
  collect_rename_pairs directory recursive config l = Ok plan →
  ∃ seen, plan_inv directory seen plan.
Proof.
  intros [Hwf Hnd]%andb_true_iff Hplain Hrun.
  apply bool_decide_eq_true in Hnd.
  eapply (collect_items_inv config l); [|done| |apply plan_inv_empty|
    exact Hrun].
  - apply Forall_forall. intros e He.
    apply process_item_inv.
    + rewrite forallb_forall in Hwf. apply Hwf. by apply list_elem_of_In.
    + rewrite forallb_forall in Hplain. apply Hplain.
      by apply list_elem_of_In.
  - intros ? _ Hnil. by apply elem_of_nil in Hnil.
Qed.

(** ** Candidate names without a separator *)

Lemma slash_free_app a b : slash_free (a ++ b) ↔ slash_free a ∧ slash_free b.
Proof. unfold slash_free. rewrite elem_of_app. tauto. Qed.

Lemma slash_free_cons c s : slash_free (c :: s) ↔ c ≠ sep ∧ slash_free s.
Proof.
  unfold slash_free. rewrite not_elem_of_cons.
  split; intros [? ?]; split; congruence.
Qed.

Lemma slash_free_replicate n : slash_free (replicate n zero_digit).
Proof. unfold slash_free. rewrite elem_of_replicate. by intros [[=] _]. Qed.

Lemma zfill_slash_free width s : slash_free s → slash_free (zfill width s).
Proof.
  intros Hs. unfold zfill. case_decide; [done|].
  destruct s as [|c rest]; [apply slash_free_replicate|].
  destruct (is_sign c).
  - apply not_elem_of_cons in Hs as [Hc Hrest].
    apply not_elem_of_cons. split; [done|].
    apply slash_free_app. split; [apply slash_free_replicate | done].
  - apply slash_free_app. split; [apply slash_free_replicate | done].
Qed.

Lemma first_rule_label rules filename default label :
  first_rule rules filename default = Ok label →
  label = default ∨ ∃ r, r ∈ rules ∧ label = rule_type r.
Proof.
  induction rules as [|rule rest IH]; simpl.
  { intros [= <-]. by left. }
  intros ([m|] & _ & Hm)%bind_Ok.
  - injection Hm as <-. right. exists rule. split; [left | done].
  - destruct (IH Hm) as [->|(r & Hr & ->)]; [by left|].
    right. exists r. split; [by right | done].
Qed.

Lemma search_if_set_match regex filename m :
  search_if_set regex filename = Ok (Some m) →
  ∃ r, re_search r filename = Ok (Some m).
Proof.
  destruct regex as [r|]; simpl; [|done].
  case_bool_decide; [|done]. intros. by exists r.
Qed.

(** When the groups of a match are free of the separator, as parts of a
    separator-free filename are, and no configured label contains it,
    no candidate name contains it. *)
Lemma candidate_name_slash_free config filename cand :
  (∀ p m g, re_search p filename = Ok (Some m) →
            Some g ∈ groups m → slash_free g) →
  Forall (λ r, slash_free (rule_type r)) (exam_type_rules config) →
  Forall (λ r, slash_free (rule_type r)) (file_type_rules config) →
  slash_free filename →
  candidate_name config filename = Ok cand →
  slash_free cand.
Proof.
  intros Hgroups Hexam Hfile Hname. unfold candidate_name, extract_file_info.
  intros ([[[y m] e] t] & Hinfo & Hgen)%bind_Ok.
  apply bind_Ok in Hinfo as (y' & Hy & Hinfo).
  apply bind_Ok in Hinfo as (m' & Hm & Hinfo).
  apply bind_Ok in Hinfo as (e' & He & Hinfo).
  apply bind_Ok in Hinfo as (t' & Ht & [= -> -> -> ->]).
  pose proof (bool_decide_eq_true_1 (slash_free unknown) eq_refl) as Hu.
  assert (slash_free e) as Hse.
  { apply first_rule_label in He as [->|(r & Hr & ->)]; [done|].
    by apply (proj1 (Forall_forall _ _) Hexam). }
  assert (slash_free t) as Hst.
  { apply first_rule_label in Ht as [->|(r & Hr & ->)]; [done|].
    by apply (proj1 (Forall_forall _ _) Hfile). }
  assert (slash_free (splitext filename).2) as Hext.
  { intros Hin. apply Hname.
    destruct (splitext_suffix filename) as [k ->].
    apply elem_of_app. by right. }
  simpl in Hgen. unfold generate_new_filename in Hgen.
  destruct y as [ym|]; [|by injection Hgen as <-].
  apply search_if_set_match in Hy as (ry & Hy).
  apply bind_Ok in Hgen as (gy & Hgy & Hgen).
  assert (slash_free (format_value gy)) as Hsy.
  { unfold group1 in Hgy. destruct (groups ym) as [|g gs] eqn:Eg; [done|].
    injection Hgy as ->. destruct gy as [sy|]; simpl.
    - eapply Hgroups; [exact Hy|]. rewrite Eg. left.
    - exact (bool_decide_eq_true_1 (slash_free (lit "None")) eq_refl). }
  destruct m as [mm|].
  - apply search_if_set_match in Hm as (rm & Hm).
    apply bind_Ok in Hgen as (gm & Hgm & Hgen).
    apply bind_Ok in Hgen as (month & Hmonth & [= <-]).
    assert (slash_free month) as Hsm.
    { unfold group1 in Hgm. destruct (groups mm) as [|g gs] eqn:Eg; [done|].
      injection Hgm as ->. destruct gm as [sm|]; [|done].
      injection Hmonth as <-. apply zfill_slash_free.
      eapply Hgroups; [exact Hm|]. rewrite Eg. left. }
    repeat (rewrite slash_free_app || rewrite slash_free_cons).
    by repeat split.
  - injection Hgen as <-.
    repeat (rewrite slash_free_app || rewrite slash_free_cons).
    by repeat split.
Qed.

(** In a tree with valid names, under the same conditions. *)
Lemma plain_candidates_of_labels config e :
  (∀ p f m g, slash_free f → re_search p f = Ok (Some m) →
              Some g ∈ groups m → slash_free g) →
  Forall (λ r, slash_free (rule_type r)) (exam_type_rules config) →
  Forall (λ r, slash_free (rule_type r)) (file_type_rules config) →
  well_formed e = true →
  plain_candidates config e = true.
Proof.
  intros Hgroups Hexam Hfile. unfold plain_candidates.
  induction e as [n|n l IH] using entry_nested_ind; simpl.
  - intros [_ Hn]%valid_name_spec.
    destruct (candidate_name config n) as [c|] eqn:Ec; [|done].
    apply bool_decide_eq_true_2.
    eapply candidate_name_slash_free; [|done..]. intros p m g.
    by apply Hgroups.
  - intros [[_ Hl]%andb_true_iff _]%andb_true_iff.
    induction IH as [|x l Hx _ IHl]; [done|]. simpl in *.
    apply andb_true_iff in Hl as [? ?].
    apply andb_true_iff. split; [by apply Hx | by apply IHl].
Qed.

(** ** The claimed names across directories *)

Lemma grows_conflict_kept acc acc' c :
  grows acc acc' → c ∈ conflict_files acc → c ∈ conflict_files acc'.
Proof. intros (_ & [k ->] & _) Hc. apply elem_of_app. by left. Qed.

Lemma grows_pair_kept acc acc' p :
  grows acc acc' → p ∈ rename_pairs acc → p ∈ rename_pairs acc'.
Proof. intros ([k ->] & _ & _) Hp. apply elem_of_app. by left. Qed.

Lemma grows_name_kept acc acc' n :
  grows acc acc' →
  n ∈ existing_new_filenames acc → n ∈ existing_new_filenames acc'.
Proof. intros (_ & _ & Hsub) Hn. by apply Hsub. Qed.

(** C1 (amended). The claimed names travel upward only: each call starts
    with an empty set and the caller merges the set a subdirectory
    returns. So when a file below the subdirectory [name] is accepted
    with a target whose base name is N, a file that lies directly in
    the parent directory, is enumerated after [name] and has the
    candidate name N is reported as a conflict and is not accepted. *)
Theorem claimed_names_merge_upward directory config pre name listing mid
    post sub source target filename plan :
  collect_rename_pairs (join directory name) true config listing = Ok sub →
  (source, target) ∈ rename_pairs sub →
  candidate_name config filename = Ok (basename target) →
  collect_rename_pairs directory true config
    (pre ++ Dir name listing :: mid ++ File filename :: post) = Ok plan →
  ∃ acc,
    collect_rename_pairs directory true config
      (pre ++ Dir name listing :: mid) = Ok acc
    ∧ process_item directory true config (File filename) acc
      = Ok (add_conflict acc (filename, basename target))
    ∧ (filename, basename target) ∈ conflict_files plan.
Proof.
  intros Hsub Hpair Hcand Hrun. unfold collect_rename_pairs in *.
  rewrite app_comm_cons, app_assoc, collect_items_app in Hrun.
  apply bind_Ok in Hrun as (acc & Hacc & Hrest).
  exists acc. split; [done|].
  assert (basename target ∈ existing_new_filenames acc) as Hin.
  { rewrite collect_items_app in Hacc.
    apply bind_Ok in Hacc as (acc0 & _ & Hacc).
    rewrite collect_items_cons in Hacc.
    apply bind_Ok in Hacc as (acc1 & Hdir & Hmid).
    rewrite process_item_dir in Hdir. unfold collect_rename_pairs in Hdir.
    rewrite Hsub in Hdir. injection Hdir as <-.
    apply collect_items_grows in Hmid as [Hmid _].
    eapply grows_name_kept; [exact Hmid|]. simpl.
    apply elem_of_union. right.
    by apply (collect_rename_pairs_recorded _ _ _ _ _ Hsub (source, target)). }
  assert (process_item directory true config (File filename) acc
          = Ok (add_conflict acc (filename, basename target))) as Hstep.
  { rewrite process_item_file, Hcand. simpl. by rewrite decide_True. }
  split; [done|]. rewrite collect_items_cons, Hstep in Hrest.
  simpl in Hrest. apply collect_items_grows in Hrest as [Hrest _].
  eapply grows_conflict_kept; [exact Hrest|]. simpl.
  apply elem_of_app. right. left.
Qed.

(** C2 (amended). In a directory tree with valid, pairwise distinct
    entry names, when no candidate name of a file of the tree contains
    the path separator, no two RenamePairs of the returned plan (the
    recursive descendants included) have the same target path. *)
Theorem planned_targets_distinct directory recursive config items plan :
  listing_ok items = true →
  forallb (plain_candidates config) items = true →
  collect_rename_pairs directory recursive config items = Ok plan →
  NoDup (targets plan).
Proof.
  intros Hwf Hplain Hrun.
  destruct (collect_rename_pairs_inv _ _ _ _ _ Hwf Hplain Hrun)
    as [seen [Hnd _]].
  exact Hnd.
Qed.

(** ** One file against the claimed names *)

(** C3 (amended). A regular file is tested against the claimed names
    accumulated so far at its level. A candidate that is a member gives
    the ConflictPair (original name, candidate name) and leaves the set
    as it is. A candidate that is not a member gives the RenamePair
    (join(directory, name), join(directory, candidate)) and adds the base
    name of the candidate to the set; the target has the parent
    directory of the source when neither name contains the separator.
    Of two files of one level with the same separator-free candidate
    name, not claimed when the first is processed, the first is planned
    and the second is reported as a conflict with that candidate. *)
Theorem file_tested_against_claimed directory recursive config filename
    cand acc :
  candidate_name config filename = Ok cand →
  (cand ∈ existing_new_filenames acc →
     process_item directory recursive config (File filename) acc
       = Ok (add_conflict acc (filename, cand))
     ∧ existing_new_filenames (add_conflict acc (filename, cand))
       = existing_new_filenames acc)
  ∧ (cand ∉ existing_new_filenames acc →
     let pair := (join directory filename, join directory cand) in
     process_item directory recursive config (File filename) acc
       = Ok (add_rename acc pair)
     ∧ existing_new_filenames (add_rename acc pair)
       = existing_new_filenames acc ∪ {[ basename cand ]}
     ∧ (slash_free filename → slash_free cand →
        dirname pair.2 = dirname pair.1))
  ∧ (slash_free cand → cand ∉ existing_new_filenames acc →
     ∀ mid second acc1 acc2,
       process_item directory recursive config (File filename) acc
         = Ok acc1 →
       collect_items directory recursive config mid acc1 = Ok acc2 →
       candidate_name config second = Ok cand →
       (join directory filename, join directory cand) ∈ rename_pairs acc2
       ∧ process_item directory recursive config (File second) acc2
         = Ok (add_conflict acc2 (second, cand))).
Proof.
  intros Hcand. split; [|split].
  - intros Hin. split; [|done].
    rewrite process_item_file, Hcand. simpl. by rewrite decide_True.
  - intros Hout pair. split; [|split].
    + rewrite process_item_file, Hcand. simpl. by rewrite decide_False.
    + simpl. by rewrite basename_join_any.
    + intros Hf Hc. simpl. by apply dirname_join.
  - intros Hc Hout mid second acc1 acc2 Hfirst Hmid Hsecond.
    rewrite process_item_file, Hcand in Hfirst. simpl in Hfirst.
    rewrite decide_False in Hfirst by done. injection Hfirst as <-.
    apply collect_items_grows in Hmid as [Hmid _]. split.
    + eapply grows_pair_kept; [exact Hmid|]. simpl.
      apply elem_of_app. right. left.
    + rewrite process_item_file, Hsecond. simpl.
      rewrite decide_True; [done|].
      eapply grows_name_kept; [exact Hmid|]. simpl.
      apply elem_of_union. right. apply elem_of_singleton.
      symmetry. by apply basename_join.
Qed.

(** C4. A regular file that the loop processes gives exactly one of a
    RenamePair and a ConflictPair, which is appended to its accumulator;
    a directory gives neither, whatever the configuration: when the run
    is recursive its listing is planned by the recursive call, and
    nothing is planned for the directory itself. So a plan has one entry
    for each regular file enumerated. *)
Theorem one_entry_per_file directory recursive config item acc acc' :
  process_item directory recursive config item acc = Ok acc' →
  match item with
  | File filename =>
      ∃ cand,
        candidate_name config filename = Ok cand
        ∧ let pair := (join directory filename, join directory cand) in
          let conflict := (filename, cand) in
          (_process_file directory item config (existing_new_filenames acc)
             = Ok (Some pair, None)
           ∧ acc' = add_rename acc pair)
          ∨ (_process_file directory item config
               (existing_new_filenames acc) = Ok (None, Some conflict)
             ∧ acc' = add_conflict acc conflict)
  | Dir name listing =>
      _process_file directory item config (existing_new_filenames acc)
        = Ok (None, None)
      ∧ if recursive then
          ∃ sub,
            collect_rename_pairs (join directory name) true config listing
              = Ok sub
            ∧ acc' = merge_sub acc sub
        else acc' = acc
  end
  ∧ entries acc' = (entries acc + count_files recursive item)%nat
  ∧ ∀ items plan,
      collect_rename_pairs directory recursive config items = Ok plan →
      entries plan = count_listing recursive items.
Proof.
  intros Hstep. split; [|split].
  - destruct item as [filename|name listing].
    + rewrite process_item_file in Hstep.
      apply bind_Ok in Hstep as (cand & Hcand & Hstep).
      exists cand. split; [done|]. cbv zeta.
      rewrite process_file_candidate, Hcand. simpl.
      revert Hstep. case_decide; intros [= <-]; [by right | by left].
    + split; [done|]. destruct recursive.
      * rewrite process_item_dir in Hstep.
        apply bind_Ok in Hstep as (sub & Hsub & [= <-]). by exists sub.
      * by injection Hstep as <-.
  - by eapply process_item_count.
  - intros items plan Hrun. by apply collect_items_count in Hrun.
Qed.


(** ** The candidate name with a year and a month *)

(** C6 (amended). With a year and a month extracted, the candidate name
    is "{year}.{month}.{category}.{fileType}{extension}": the extension
    is the end of the original filename, and the month is group 1 after
    [zfill(2)], which is left padding with zeros to width 2 unless the
    group is a lone sign "+" or "-". With year "2023", month "3" and
    both labels the sentinel, the name is "2023.03.未知.未知{ext}". *)
Theorem year_month_candidate filename ym mm year month gy gm exam_type
    file_type :
  groups ym = Some year :: gy →
  groups mm = Some month :: gm →
  generate_new_filename filename (Some ym) (Some mm) exam_type file_type
    = Ok (year ++ lit "." ++ zfill 2 month ++ lit "." ++ exam_type
            ++ lit "." ++ file_type ++ (splitext filename).2)
  ∧ (month ≠ lit "+" → month ≠ lit "-" →
     zfill 2 month = pad_left_zero 2 month)
  ∧ (splitext filename).2 `suffix_of` filename
  ∧ (year = lit "2023" → month = lit "3" →
     exam_type = unknown → file_type = unknown →
     generate_new_filename filename (Some ym) (Some mm) exam_type file_type
       = Ok (lit "2023.03." ++ unknown ++ lit "." ++ unknown
               ++ (splitext filename).2)).
Proof.
  intros Hy Hm.
  assert (generate_new_filename filename (Some ym) (Some mm) exam_type
            file_type
          = Ok (year ++ lit "." ++ zfill 2 month ++ lit "." ++ exam_type
                  ++ lit "." ++ file_type ++ (splitext filename).2)) as E.
  { unfold generate_new_filename, group1. by rewrite Hy, Hm. }
  split; [done|]. split; [apply zfill_2_pad|].
  split; [apply splitext_suffix|].
  intros -> -> -> ->. by rewrite E.
Qed.

(** ** The labels *)

(** C7. The classifier returns, for the category and for the file type,
    the label of the first rule of the configured list whose pattern
    matches the filename, and the sentinel "未知" when no rule matches. It
    fails to return only when [re.search] raises on a configured
    pattern. *)
Theorem labels_by_first_matching_rule filename config :
  match extract_file_info filename config with
  | Ok (_, _, exam_type, file_type) =>
      first_match_label (exam_type_rules config) filename exam_type
      ∧ first_match_label (file_type_rules config) filename file_type
  | Raise e => ∃ p, p ∈ patterns_of config ∧ re_search p filename = Raise e
  end.
Proof.
  unfold extract_file_info, patterns_of.
  destruct (search_if_set (year_regex config) filename) as [y|e] eqn:Ey;
    simpl.
  2:{ apply search_if_set_Raise in Ey as (r & -> & Hr).
      exists r. split; [|done]. apply elem_of_app. left. left. }
  destruct (search_if_set (month_regex config) filename) as [m|e] eqn:Em;
    simpl.
  2:{ apply search_if_set_Raise in Em as (r & -> & Hr).
      exists r. split; [|done]. rewrite !elem_of_app. right. left. left. }
  pose proof (first_rule_outcome (exam_type_rules config) filename) as He.
  destruct (first_rule (exam_type_rules config) filename unknown)
    as [exam_type|e]; simpl.
  2:{ destruct He as (r & Hin & Hr). exists (rule_pattern r).
      split; [|done]. rewrite !elem_of_app. right. right. left.
      apply list_elem_of_fmap. by exists r. }
  pose proof (first_rule_outcome (file_type_rules config) filename) as Hf.
  destruct (first_rule (file_type_rules config) filename unknown)
    as [file_type|e]; simpl.
  2:{ destruct Hf as (r & Hin & Hr). exists (rule_pattern r).
      split; [|done]. rewrite !elem_of_app. right. right. right.
      apply list_elem_of_fmap. by exists r. }
  by split.
Qed.

(** ** Without recursion *)

Lemma collect_items_flat directory config l acc :
  collect_items directory false config l acc
  = collect_items directory false config (List.filter is_file l) acc.
Proof.
  revert acc. induction l as [|[n|n sub] l IH]; intros acc; [done| |].
  - simpl List.filter. rewrite !collect_items_cons.
    destruct (process_item directory false config (File n) acc); simpl;
      [apply IH | done].
  - simpl List.filter. rewrite collect_items_cons, process_item_skip.
    apply IH.
Qed.

Lemma collect_items_flat_sources directory config (all : list entry) l :
  l ⊆ all →
  ∀ acc acc',
    collect_items directory false config l acc = Ok acc' →
    Forall (λ p, ∃ f c, File f ∈ all
                        ∧ p = (join directory f, join directory c))
      (rename_pairs acc)
    ∧ Forall (λ c, File c.1 ∈ all) (conflict_files acc) →
    Forall (λ p, ∃ f c, File f ∈ all
                        ∧ p = (join directory f, join directory c))
      (rename_pairs acc')
    ∧ Forall (λ c, File c.1 ∈ all) (conflict_files acc').
Proof.
  induction l as [|[n|n sub] l IH]; intros Hsub acc acc'.
  - by intros [= <-].
  - rewrite collect_items_cons, process_item_file.
    intros (acc1 & (c & _ & H1)%bind_Ok & Hrest)%bind_Ok [Hp Hc].
    assert (File n ∈ all) as Hn by (apply Hsub; left).
    eapply IH; [intros x Hx; apply Hsub; by right | exact Hrest |].
    revert H1. case_decide; intros [= <-]; simpl.
    + split; [done|]. apply Forall_app. split; [done|].
      by repeat constructor.
    + split; [|done]. apply Forall_app. split; [done|].
      repeat constructor. by exists n, c.
  - rewrite collect_items_cons, process_item_skip. simpl.
    intros Hrest.
    eapply IH; [intros x Hx; apply Hsub; by right | exact Hrest].
Qed.

(** C8. In a run that is not recursive a subdirectory is skipped: the
    plan is the plan of the regular files of the listing alone, whatever
    the subdirectories contain; every RenamePair has a regular file of
    the listing as its source, every ConflictPair has one as its
    original name, and the plan has as many entries as the listing has
    regular files. *)
Theorem non_recursive_skips_subdirectories directory config items :
  collect_rename_pairs directory false config items
  = collect_rename_pairs directory false config (List.filter is_file items)
  ∧ ∀ plan,
      collect_rename_pairs directory false config items = Ok plan →
      Forall (λ p, ∃ f c, File f ∈ items
                          ∧ p = (join directory f, join directory c))
        (rename_pairs plan)
      ∧ Forall (λ c, File c.1 ∈ items) (conflict_files plan)
      ∧ entries plan = length (List.filter is_file items).
Proof.
  split; [apply collect_items_flat|]. intros plan Hrun.
  destruct (collect_items_flat_sources directory config items items
              ltac:(done) _ _ Hrun) as [Hp Hc].
  { split; constructor. }
  split; [done|]. split; [done|].
  apply collect_items_count in Hrun. rewrite Hrun.
  unfold entries. simpl. clear.
  induction items as [|[n|n sub] l IH]; simpl; [done | by rewrite IH | done].
Qed.

End Rename.

(** ** When the candidate name is defined *)

(** C10 (amended). [generate_new_filename] returns a name exactly when
    it has what it reads: no year match; or a year match with a group 1
    and no month match; or a year match with a group 1 and a month match
    whose group 1 is a string, that is, took part in the match. A year
    match without a capture group raises IndexError, as the year pattern
    "2023" does on the file "2023.pdf". *)
Theorem candidate_name_defined_when_ready filename year_match month_match
    exam_type file_type :
  ((∃ s, generate_new_filename filename year_match month_match exam_type
           file_type = Ok s)
   ↔ name_ready year_match month_match)
  ∧ (∀ m, groups m = [] →
       generate_new_filename filename (Some m) month_match exam_type
         file_type = Raise IndexError)
  ∧ extract_file_info lit_search (lit "2023.pdf") groupless_config
    = Ok (Some {| groups := [] |}, None, unknown, unknown)
  ∧ candidate_name lit_search groupless_config (lit "2023.pdf")
    = Raise IndexError.
Proof.
  split; [apply generate_new_filename_ready|].
  split; [|by split].
  intros m Hm. unfold generate_new_filename, group1. by rewrite Hm.
Qed.

(** ** The code on the sample inputs *)

Example classify_exam_file :
  extract_file_info lit_search (lit "2023_03_examA.pdf") exam_config
  = Ok (Some {| groups := [Some (lit "2023")] |},
        Some {| groups := [Some (lit "03")] |}, lit "examA", lit "pdf").
Proof. reflexivity. Qed.

Example candidate_of_exam_file :
  candidate_name lit_search exam_config (lit "2023_03_examA.pdf")
  = Ok (lit "2023.03.examA.pdf.pdf").
Proof. reflexivity. Qed.

Example candidate_with_cjk_labels :
  generate_new_filename (lit "scan_2023-3.tar.gz")
    (Some {| groups := [Some (lit "2023")] |})
    (Some {| groups := [Some (lit "3")] |}) unknown unknown
  = Ok (lit "2023.03." ++ unknown ++ lit "." ++ unknown ++ lit ".gz").
Proof. reflexivity. Qed.

(** A full-width digit is one character: it is padded. *)
Example zfill_full_width_digit : zfill 2 [65299%N] = [48%N; 65299%N].
Proof. reflexivity. Qed.

(** C1, as stated, fails: the subdirectories a and b of one recursive
    run each have their file x.pdf accepted, with the same base name. *)
Lemma sibling_directories_accept_same_name :
  ∃ names,
    collect_rename_pairs lit_search (lit "r") true empty_config twin_tree
    = Ok {| rename_pairs := [(lit "r/a/x.pdf", lit "r/a/x.pdf");
                             (lit "r/b/x.pdf", lit "r/b/x.pdf")];
            conflict_files := [(lit "x.pdf", lit "x.pdf")];
            existing_new_filenames := names |}
    ∧ candidate_name lit_search empty_config (lit "x.pdf") = Ok (lit "x.pdf")
    ∧ basename (lit "r/a/x.pdf") = lit "x.pdf"
    ∧ basename (lit "r/b/x.pdf") = lit "x.pdf".
Proof. eexists. split; [vm_compute; reflexivity | by repeat split]. Qed.

(** C2, as stated, fails: with a label that contains "/", two files of
    one directory are both planned, onto the same target path. *)
Lemma separator_in_label_repeats_target :
  ∃ names,
    let target := lit "d/2023.a/b." ++ unknown ++ lit ".pdf" in
    collect_rename_pairs lit_search (lit "d") false slash_label_config
      [File (lit "2023x1.pdf"); File (lit "2023x2.pdf")]
    = Ok {| rename_pairs := [(lit "d/2023x1.pdf", target);
                             (lit "d/2023x2.pdf", target)];
            conflict_files := [];
            existing_new_filenames := names |}
    ∧ listing_ok [File (lit "2023x1.pdf"); File (lit "2023x2.pdf")] = true.
Proof. eexists. split; [vm_compute; reflexivity | reflexivity]. Qed.

(** C3, as stated, fails: with a label that contains "/", two files of
    one level with the same candidate name are both planned, none is
    reported, and the target of each lies in another directory than its
    source. *)
Lemma second_file_planned_not_reported :
  ∃ names,
    let cand := lit "2024." ++ unknown ++ lit ".doc/pdf.pdf" in
    candidate_name lit_search slash_type_config (lit "2024a.pdf") = Ok cand
    ∧ candidate_name lit_search slash_type_config (lit "2024b.pdf") = Ok cand
    ∧ collect_rename_pairs lit_search (lit "d") false slash_type_config
        [File (lit "2024a.pdf"); File (lit "2024b.pdf")]
      = Ok {| rename_pairs := [(lit "d/2024a.pdf", join (lit "d") cand);
                               (lit "d/2024b.pdf", join (lit "d") cand)];
              conflict_files := [];
              existing_new_filenames := names |}
    ∧ dirname (lit "d/2024a.pdf") = lit "d"
    ∧ dirname (join (lit "d") cand) = lit "d/2024." ++ unknown ++ lit ".doc".
Proof.
  eexists. cbv zeta. split; [reflexivity|]. split; [reflexivity|].
  split; [vm_compute; reflexivity | by split].
Qed.

(** C6, as stated, fails: a month group that is the lone sign "-" gets
    its zero after the sign, where left padding puts it in front. *)
Lemma lone_sign_month_not_left_padded :
  generate_new_filename (lit "x.pdf")
    (Some {| groups := [Some (lit "2023")] |})
    (Some {| groups := [Some (lit "-")] |}) unknown unknown
  = Ok (lit "2023.-0." ++ unknown ++ lit "." ++ unknown ++ lit ".pdf")
  ∧ zfill 2 (lit "-") = lit "-0"
  ∧ pad_left_zero 2 (lit "-") = lit "0-".
Proof. by repeat split. Qed.

(** C10, as stated, fails: both matches have a first capture group, the
    month's did not take part in the match, and [None.zfill] raises. *)
Lemma unmatched_month_group_raises :
  let year_match := {| groups := [Some (lit "2023")] |} in
  let month_match := {| groups := [None] |} in
  length (groups year_match) = 1%nat
  ∧ length (groups month_match) = 1%nat
  ∧ generate_new_filename (lit "2023-m.pdf") (Some year_match)
      (Some month_match) unknown unknown = Raise AttributeError.
Proof. by repeat split. Qed.

(** ** The theorems at the sample inputs *)

(** In the tree with the twins, the file x.pdf beside the directories is
    reported: the name was claimed below a. *)
Lemma claimed_names_merge_upward_witness :
  ∃ plan,
    collect_rename_pairs lit_search (lit "r") true empty_config twin_tree
    = Ok plan
    ∧ ∃ acc,
        collect_rename_pairs lit_search (lit "r") true empty_config
          ([] ++ Dir (lit "a") [File (lit "x.pdf")]
              :: [Dir (lit "b") [File (lit "x.pdf")]]) = Ok acc
        ∧ process_item lit_search (lit "r") true empty_config
            (File (lit "x.pdf")) acc
          = Ok (add_conflict acc
                  (lit "x.pdf", basename (lit "r/a/x.pdf")))
        ∧ (lit "x.pdf", basename (lit "r/a/x.pdf")) ∈ conflict_files plan.
Proof.
  eexists. split; [vm_compute; reflexivity|].
  apply (claimed_names_merge_upward lit_search (lit "r") empty_config []
           (lit "a") [File (lit "x.pdf")] [Dir (lit "b") [File (lit "x.pdf")]]
           []
           (add_rename empty_plan (lit "r/a/x.pdf", lit "r/a/x.pdf"))
           (lit "r/a/x.pdf") (lit "r/a/x.pdf") (lit "x.pdf")).
  - vm_compute; reflexivity.
  - simpl. left.
  - reflexivity.
  - vm_compute; reflexivity.
Defined.

Lemma planned_targets_distinct_witness :
  ∃ plan,
    collect_rename_pairs lit_search (lit "docs") true exam_config exam_tree
    = Ok plan
    ∧ listing_ok exam_tree = true
    ∧ forallb (plain_candidates lit_search exam_config) exam_tree = true
    ∧ NoDup (targets plan).
Proof.
  eexists. split; [vm_compute; reflexivity|].
  split; [vm_compute; reflexivity|]. split; [vm_compute; reflexivity|].
  apply (planned_targets_distinct lit_search (lit "docs") true exam_config
           exam_tree);
    vm_compute; reflexivity.
Defined.

(** The two files of the specification's example: the first is planned,
    the second is reported. *)
Lemma file_tested_against_claimed_witness :
  let first := lit "2023_03_examA.pdf" in
  let second := lit "2023_03_examB.pdf" in
  let cand := lit "2023.03.examA.pdf.pdf" in
  let acc1 := add_rename empty_plan (lit "docs/2023_03_examA.pdf",
                                     lit "docs/2023.03.examA.pdf.pdf") in
  candidate_name lit_search exam_config first = Ok cand
  ∧ candidate_name lit_search exam_config second = Ok cand
  ∧ process_item lit_search (lit "docs") false exam_config (File first)
      empty_plan = Ok acc1
  ∧ dirname (lit "docs/2023.03.examA.pdf.pdf")
    = dirname (lit "docs/2023_03_examA.pdf")
  ∧ process_item lit_search (lit "docs") false exam_config (File second)
      acc1 = Ok (add_conflict acc1 (second, cand)).
Proof.
  cbv zeta.
  pose proof (bool_decide_eq_true_1
                (slash_free (lit "2023.03.examA.pdf.pdf")) eq_refl) as Hcand.
  pose proof (bool_decide_eq_true_1
                (slash_free (lit "2023_03_examA.pdf")) eq_refl) as Hname.
  destruct (file_tested_against_claimed lit_search (lit "docs") false
              exam_config (lit "2023_03_examA.pdf")
              (lit "2023.03.examA.pdf.pdf") empty_plan eq_refl)
    as (_ & Hfirst & Hboth).
  destruct (Hfirst (not_elem_of_empty _)) as (Hplan & _ & Hdir).
  split; [reflexivity|]. split; [reflexivity|]. split; [exact Hplan|].
  split; [by apply Hdir|].
  exact (proj2 (Hboth Hcand (not_elem_of_empty _) []
                  (lit "2023_03_examB.pdf") _ _ Hplan eq_refl eq_refl)).
Defined.

Lemma one_entry_per_file_witness :
  let name := lit "2023_03_examB.pdf" in
  let cand := lit "2023.03.examA.pdf.pdf" in
  let acc := add_rename empty_plan (lit "docs/2023_03_examA.pdf",
                                    lit "docs/2023.03.examA.pdf.pdf") in
  process_item lit_search (lit "docs") true exam_config (File name) acc
  = Ok (add_conflict acc (name, cand))
  ∧ entries (add_conflict acc (name, cand)) = (entries acc + 1)%nat
  ∧ ∃ plan,
      collect_rename_pairs lit_search (lit "docs") true exam_config exam_tree
      = Ok plan
      ∧ entries plan = 4%nat.
Proof.
  cbv zeta.
  assert (process_item lit_search (lit "docs") true exam_config
            (File (lit "2023_03_examB.pdf"))
            (add_rename empty_plan (lit "docs/2023_03_examA.pdf",
                                    lit "docs/2023.03.examA.pdf.pdf"))
          = Ok (add_conflict
                  (add_rename empty_plan (lit "docs/2023_03_examA.pdf",
                                          lit "docs/2023.03.examA.pdf.pdf"))
                  (lit "2023_03_examB.pdf", lit "2023.03.examA.pdf.pdf")))
    as Hstep by (vm_compute; reflexivity).
  destruct (one_entry_per_file lit_search _ _ _ _ _ _ Hstep)
    as (_ & Hcount & Hrun).
  split; [exact Hstep|]. split; [exact Hcount|].
  eexists. split; [vm_compute; reflexivity|].
  apply (Hrun exam_tree). vm_compute; reflexivity.
Defined.


Lemma year_month_candidate_witness :
  generate_new_filename (lit "paper 2023-3.pdf")
    (Some {| groups := [Some (lit "2023")] |})
    (Some {| groups := [Some (lit "3")] |}) unknown unknown
  = Ok (lit "2023.03." ++ unknown ++ lit "." ++ unknown ++ lit ".pdf")
  ∧ zfill 2 (lit "3") = pad_left_zero 2 (lit "3").
Proof.
  destruct (year_month_candidate (lit "paper 2023-3.pdf")
              {| groups := [Some (lit "2023")] |}
              {| groups := [Some (lit "3")] |} (lit "2023") (lit "3") [] []
              unknown unknown eq_refl eq_refl)
    as (_ & Hpad & _ & Hname).
  split.
  - exact (Hname eq_refl eq_refl eq_refl eq_refl).
  - apply Hpad; discriminate.
Defined.

(** Without recursion the directory old of the sample tree is skipped. *)
Lemma non_recursive_skips_subdirectories_witness :
  ∃ plan,
    collect_rename_pairs lit_search (lit "docs") false exam_config exam_tree
    = Ok plan
    ∧ List.filter is_file exam_tree
      = [File (lit "2023_03_examA.pdf"); File (lit "2023_03_examB.pdf");
         File (lit "notes.txt")]
    ∧ collect_rename_pairs lit_search (lit "docs") false exam_config
        (List.filter is_file exam_tree) = Ok plan
    ∧ entries plan = 3%nat.
Proof.
  eexists. split; [vm_compute; reflexivity|]. split; [reflexivity|].
  destruct (non_recursive_skips_subdirectories lit_search (lit "docs")
              exam_config exam_tree) as [Hflat Hplan].
  split.
  - rewrite <- Hflat. vm_compute; reflexivity.
  - eapply Hplan. vm_compute; reflexivity.
Defined.

(** * Further properties of the planner *)

(** The regular files a run enumerates, each with the directory whose
    listing holds it, in the order of the traversal. *)
Fixpoint walk_entry (recursive : bool) (directory : str) (e : entry)
  : list (str * str) :=
  match e with
  | File n => [(directory, n)]
  | Dir n l =>
      if recursive then
        (fix below (l : list entry) : list (str * str) :=
           match l with
           | [] => []
           | x :: r => walk_entry true (join directory n) x ++ below r
           end) l
      else []
  end.

Definition walk (recursive : bool) (directory : str) (items : list entry)
  : list (str * str) :=
  items ≫= walk_entry recursive directory.

(** The path of an enumerated file. *)
Definition path_of (file : str * str) : str := join file.1 file.2.

(** [s] is the path of the entry [n] of [directory], or lies below it. *)
Definition below (directory n s : str) : Prop :=
  ∃ rest, s = dirprefix directory ++ n ++ rest
          ∧ (rest = [] ∨ ∃ r, rest = sep :: r).

(** No claimed name contains the separator. *)
Definition names_plain (acc : Plan) : Prop :=
  ∀ n, n ∈ existing_new_filenames acc → slash_free n.

(** The accumulators [a0] of a run without recursion beside the
    accumulators [a1] of the recursive run of the same directory: the
    recursive run has claimed and reported at least as much, and what the
    other run planned it has planned or reported. *)
Definition alongside (directory : str) (a0 a1 : Plan) : Prop :=
  existing_new_filenames a0 ⊆ existing_new_filenames a1
  ∧ conflict_files a0 `sublist_of` conflict_files a1
  ∧ (∀ p, p ∈ rename_pairs a0 →
       p ∈ rename_pairs a1
       ∨ ∃ f c, (f, c) ∈ conflict_files a1
                ∧ p = (join directory f, join directory c))
  ∧ names_plain a1.

(** The claimed names are the base names of the planned targets. *)
Definition claims_exact (acc : Plan) : Prop :=
  ∀ n, n ∈ existing_new_filenames acc
       ↔ ∃ p, p ∈ rename_pairs acc ∧ basename p.2 = n.

(** Every reported candidate is a claimed name. *)
Definition conflicts_claimed (acc : Plan) : Prop :=
  ∀ c, c ∈ conflict_files acc → c.2 ∈ existing_new_filenames acc.

Section Planner.

Variable re_search : str → str → result (option Match).

(** A property of plans that the three updates of the loop keep is kept
    by the loop. *)
Lemma process_item_invariant (I : Plan → Prop) config :
  I empty_plan →
  (∀ acc d f c,
     I acc → candidate_name re_search config f = Ok c →
     c ∉ existing_new_filenames acc →
     I (add_rename acc (join d f, join d c))) →
  (∀ acc f c,
     I acc → candidate_name re_search config f = Ok c →
     c ∈ existing_new_filenames acc →
     I (add_conflict acc (f, c))) →
  (∀ acc sub, I acc → I sub → I (merge_sub acc sub)) →
  ∀ e directory recursive acc acc',
    I acc →
    process_item re_search directory recursive config e acc = Ok acc' →
    I acc'.
Proof.
  intros Hempty Hrename Hconflict Hmerge.
  induction e as [n|n l IH] using entry_nested_ind;
    intros directory recursive acc acc' Hacc.
  - rewrite process_item_file.
    intros (c & Hc & Hstep)%bind_Ok. revert Hstep.
    case_decide; intros [= <-]; eauto.
  - destruct recursive; [|by intros [= <-]].
    rewrite process_item_dir. unfold collect_rename_pairs.
    intros (sub & Hsub & [= <-])%bind_Ok.
    apply Hmerge; [done|].
    revert Hsub. generalize Hempty. generalize empty_plan.
    generalize (join directory n). intros d acc0. revert acc0.
    induction IH as [|x l Hx _ IHl]; intros acc0 H0; simpl.
    { by intros [= <-]. }
    intros (acc1 & H1 & Hrest)%bind_Ok.
    apply (IHl acc1); [|done]. by eapply Hx.
Qed.

Lemma collect_items_invariant (I : Plan → Prop) config :
  I empty_plan →
  (∀ acc d f c,
     I acc → candidate_name re_search config f = Ok c →
     c ∉ existing_new_filenames acc →
     I (add_rename acc (join d f, join d c))) →
  (∀ acc f c,
     I acc → candidate_name re_search config f = Ok c →
     c ∈ existing_new_filenames acc →
     I (add_conflict acc (f, c))) →
  (∀ acc sub, I acc → I sub → I (merge_sub acc sub)) →
  ∀ items directory recursive acc acc',
    I acc →
    collect_items re_search directory recursive config items acc = Ok acc' →
    I acc'.
Proof.
  intros Hempty Hrename Hconflict Hmerge.
  induction items as [|x l IH]; intros directory recursive acc acc' Hacc;
    simpl.
  { by intros [= <-]. }
  intros (acc1 & H1 & Hrest)%bind_Ok.
  eapply IH; [|exact Hrest].
  by eapply (process_item_invariant I).
Qed.

(** ** The claimed names and the plan *)

Lemma claims_exact_empty : claims_exact empty_plan.
Proof.
  intros n. simpl. split; [set_solver|]. intros (p & Hp & _).
  by apply elem_of_nil in Hp.
Qed.

Lemma claims_exact_run directory recursive config items plan :
  collect_rename_pairs re_search directory recursive config items = Ok plan →
  claims_exact plan.
Proof.
  unfold collect_rename_pairs. intros Hrun.
  eapply (collect_items_invariant claims_exact);
    [apply claims_exact_empty | | | | apply claims_exact_empty | exact Hrun];
    unfold claims_exact; simpl.
  - intros acc d f c Hacc _ _ n.
    rewrite elem_of_union, elem_of_singleton, Hacc. split.
    + intros [(p & Hp & Hn)| ->].
      * exists p. split; [|done]. apply elem_of_app. by left.
      * eexists. split; [apply elem_of_app; right; left | done].
    + intros (p & [Hp| ->%list_elem_of_singleton]%elem_of_app & Hn).
      * left. by exists p.
      * by right.
  - done.
  - intros acc sub Hacc Hsub n.
    rewrite elem_of_union, Hacc, Hsub. split.
    + intros [(p & Hp & Hn)|(p & Hp & Hn)]; exists p.
      * split; [|done]. apply elem_of_app. by left.
      * split; [|done]. apply elem_of_app. by right.
    + intros (p & [Hp|Hp]%elem_of_app & Hn); [left | right]; by exists p.
Qed.

Lemma basename_slash_free p : slash_free (basename p).
Proof.
  destruct (decide (sep ∈ p)) as [Hin|Hout].
  - apply list_elem_of_split_r in Hin as (l1 & l2 & -> & Hl2).
    by rewrite basename_last_sep.
  - pose proof (basename_after_prefix [] p Hout (or_introl eq_refl)) as E.
    simpl in E. by rewrite E.
Qed.

Lemma conflicts_claimed_run directory recursive config items plan :
  collect_rename_pairs re_search directory recursive config items = Ok plan →
  conflicts_claimed plan.
Proof.
  unfold collect_rename_pairs. intros Hrun.
  assert (conflicts_claimed empty_plan) as Hempty.
  { intros c Hc. by apply elem_of_nil in Hc. }
  eapply (collect_items_invariant conflicts_claimed);
    [exact Hempty | | | | exact Hempty | exact Hrun];
    unfold conflicts_claimed; simpl.
  - intros acc d f c Hacc _ _ x Hx. apply elem_of_union. left. by apply Hacc.
  - intros acc f c Hacc _ Hin x [Hx| ->%list_elem_of_singleton]%elem_of_app;
      [by apply Hacc | done].
  - intros acc sub Hacc Hsub x [Hx|Hx]%elem_of_app; apply elem_of_union;
      [left; by apply Hacc | right; by apply Hsub].
Qed.

(** X1. The set a run returns holds exactly the base names of the targets
    it planned; no name in it contains the separator. *)
Theorem claimed_names_are_target_base_names directory recursive config items
    plan :
  collect_rename_pairs re_search directory recursive config items = Ok plan →
  ∀ n, (n ∈ existing_new_filenames plan
        ↔ ∃ p, p ∈ rename_pairs plan ∧ basename p.2 = n)
       ∧ (n ∈ existing_new_filenames plan → slash_free n).
Proof.
  intros Hrun n. pose proof (claims_exact_run _ _ _ _ _ Hrun n) as Hn.
  split; [done|]. intros (p & _ & <-)%Hn. apply basename_slash_free.
Qed.

(** X2. Every ConflictPair of a run names a planned target: its candidate
    is the base name of the target of one of the RenamePairs. *)
Theorem conflict_names_planned_target directory recursive config items plan :
  collect_rename_pairs re_search directory recursive config items = Ok plan →
  ∀ filename candidate,
    (filename, candidate) ∈ conflict_files plan →
    ∃ p, p ∈ rename_pairs plan ∧ basename p.2 = candidate.
Proof.
  intros Hrun filename candidate Hc.
  apply (claims_exact_run _ _ _ _ _ Hrun).
  by apply (conflicts_claimed_run _ _ _ _ _ Hrun (filename, candidate)).
Qed.

(** ** The run and the traversal *)

Lemma walk_entry_dir directory n l :
  walk_entry true directory (Dir n l) = walk true (join directory n) l.
Proof.
  unfold walk. simpl. induction l as [|x l IH]; simpl; [done|].
  by rewrite IH.
Qed.

Lemma walk_cons recursive directory x l :
  walk recursive directory (x :: l)
  = walk_entry recursive directory x ++ walk recursive directory l.
Proof. reflexivity. Qed.

(** A relation between the files enumerated and the accumulators before
    and after that holds of the empty step, of the two outcomes of a
    file and of a merge, and composes, holds of every run. *)
Lemma process_item_walk (Q : list (str * str) → Plan → Plan → Prop) config :
  (∀ acc, Q [] acc acc) →
  (∀ l1 l2 a b c, Q l1 a b → Q l2 b c → Q (l1 ++ l2) a c) →
  (∀ acc d f c,
     candidate_name re_search config f = Ok c →
     c ∉ existing_new_filenames acc →
     Q [(d, f)] acc (add_rename acc (join d f, join d c))) →
  (∀ acc d f c,
     candidate_name re_search config f = Ok c →
     c ∈ existing_new_filenames acc →
     Q [(d, f)] acc (add_conflict acc (f, c))) →
  (∀ l acc sub, Q l empty_plan sub → Q l acc (merge_sub acc sub)) →
  ∀ e directory recursive acc acc',
    process_item re_search directory recursive config e acc = Ok acc' →
    Q (walk_entry recursive directory e) acc acc'.
Proof.
  intros Hnil Happ Hrename Hconflict Hmerge.
  induction e as [n|n l IH] using entry_nested_ind;
    intros directory recursive acc acc'.
  - rewrite process_item_file.
    intros (c & Hc & Hstep)%bind_Ok. revert Hstep. simpl.
    case_decide; intros [= <-]; eauto.
  - destruct recursive; [|intros [= <-]; apply Hnil].
    rewrite process_item_dir, walk_entry_dir. unfold collect_rename_pairs.
    intros (sub & Hsub & [= <-])%bind_Ok.
    apply Hmerge. revert Hsub. generalize empty_plan.
    generalize (join directory n). intros d acc0. revert acc0.
    induction IH as [|x l Hx _ IHl]; intros acc0.
    { intros [= <-]. apply Hnil. }
    rewrite collect_items_cons, walk_cons.
    intros (acc1 & H1 & Hrest)%bind_Ok.
    eapply Happ; [by apply Hx | by apply IHl].
Qed.

Lemma collect_items_walk (Q : list (str * str) → Plan → Plan → Prop) config :
  (∀ acc, Q [] acc acc) →
  (∀ l1 l2 a b c, Q l1 a b → Q l2 b c → Q (l1 ++ l2) a c) →
  (∀ acc d f c,
     candidate_name re_search config f = Ok c →
     c ∉ existing_new_filenames acc →
     Q [(d, f)] acc (add_rename acc (join d f, join d c))) →
  (∀ acc d f c,
     candidate_name re_search config f = Ok c →
     c ∈ existing_new_filenames acc →
     Q [(d, f)] acc (add_conflict acc (f, c))) →
  (∀ l acc sub, Q l empty_plan sub → Q l acc (merge_sub acc sub)) →
  ∀ items directory recursive acc acc',
    collect_items re_search directory recursive config items acc = Ok acc' →
    Q (walk recursive directory items) acc acc'.
Proof.
  intros Hnil Happ Hrename Hconflict Hmerge.
  induction items as [|x l IH]; intros directory recursive acc acc'.
  { intros [= <-]. apply Hnil. }
  rewrite collect_items_cons, walk_cons.
  intros (acc1 & H1 & Hrest)%bind_Ok.
  eapply Happ; [by eapply (process_item_walk Q) | by apply IH].
Qed.

(** X3. A plan follows the traversal: the sources of its RenamePairs are
    paths of enumerated files, in the order of the enumeration, and the
    original names of its ConflictPairs are names of enumerated files, in
    that order. *)
Theorem plan_follows_traversal directory recursive config items plan :
  collect_rename_pairs re_search directory recursive config items = Ok plan →
  (rename_pairs plan).*1
    `sublist_of` (path_of <$> walk recursive directory items)
  ∧ (conflict_files plan).*1
    `sublist_of` (walk recursive directory items).*2.
Proof.
  intros Hrun.
  cut (∃ ps cs,
         rename_pairs plan = rename_pairs empty_plan ++ ps
         ∧ conflict_files plan = conflict_files empty_plan ++ cs
         ∧ ps.*1 `sublist_of` (path_of <$> walk recursive directory items)
         ∧ cs.*1 `sublist_of` (walk recursive directory items).*2).
  { by intros (ps & cs & -> & -> & ? & ?). }
  revert Hrun. unfold collect_rename_pairs.
  apply (collect_items_walk
           (λ l a b, ∃ ps cs,
              rename_pairs b = rename_pairs a ++ ps
              ∧ conflict_files b = conflict_files a ++ cs
              ∧ ps.*1 `sublist_of` (path_of <$> l)
              ∧ cs.*1 `sublist_of` l.*2)).
  - intros acc. exists [], []. by rewrite !app_nil_r.
  - intros l1 l2 a b c (ps1 & cs1 & Hp1 & Hc1 & Hs1 & Ht1)
      (ps2 & cs2 & Hp2 & Hc2 & Hs2 & Ht2).
    exists (ps1 ++ ps2), (cs1 ++ cs2).
    rewrite Hp2, Hp1, Hc2, Hc1, !fmap_app, <- !app_assoc.
    split; [done|]. split; [done|]. split; by apply sublist_app.
  - intros acc d f c _ _. exists [(join d f, join d c)], [].
    simpl. rewrite app_nil_r. split; [done|]. split; [done|].
    split; [done | apply sublist_nil_l].
  - intros acc d f c _ _. exists [], [(f, c)].
    simpl. rewrite app_nil_r. split; [done|]. split; [done|].
    split; [apply sublist_nil_l | done].
  - intros l acc sub (ps & cs & Hp & Hc & Hs & Ht). exists ps, cs.
    simpl in *. by rewrite Hp, Hc.
Qed.

(** X4. No enumerated file is dropped: a run that returns has, for every
    regular file it enumerated, either the RenamePair of the file and its
    candidate name, in the directory of the file, or the ConflictPair of
    its name and its candidate name. *)
Theorem every_file_planned_or_reported directory recursive config items plan :
  collect_rename_pairs re_search directory recursive config items = Ok plan →
  ∀ d f, (d, f) ∈ walk recursive directory items →
    ∃ c, candidate_name re_search config f = Ok c
         ∧ ((join d f, join d c) ∈ rename_pairs plan
            ∨ (f, c) ∈ conflict_files plan).
Proof.
  intros Hrun.
  cut (grows empty_plan plan
       ∧ ∀ d f, (d, f) ∈ walk recursive directory items →
           ∃ c, candidate_name re_search config f = Ok c
                ∧ ((join d f, join d c) ∈ rename_pairs plan
                   ∨ (f, c) ∈ conflict_files plan)).
  { by intros [_ ?]. }
  revert Hrun. unfold collect_rename_pairs.
  apply (collect_items_walk
           (λ l a b,
              grows a b
              ∧ ∀ d f, (d, f) ∈ l →
                  ∃ c, candidate_name re_search config f = Ok c
                       ∧ ((join d f, join d c) ∈ rename_pairs b
                          ∨ (f, c) ∈ conflict_files b))).
  - intros acc. split; [apply grows_refl|].
    intros d f Hin. by apply elem_of_nil in Hin.
  - intros l1 l2 a b c [Hg1 H1] [Hg2 H2].
    split; [by eapply (grows_trans re_search)|].
    intros d f [Hin|Hin]%elem_of_app; [|by apply H2].
    destruct (H1 d f Hin) as (cand & Hcand & [Hp|Hc]); exists cand;
      (split; [done|]).
    + left. by eapply grows_pair_kept.
    + right. by eapply grows_conflict_kept.
  - intros acc d f c Hc _. split; [apply (grows_add_rename re_search)|].
    intros d' f' Hin. apply list_elem_of_singleton in Hin.
    injection Hin as -> ->. exists c.
    split; [done|]. left. simpl. apply elem_of_app. right. left.
  - intros acc d f c Hc _. split; [apply grows_add_conflict|].
    intros d' f' Hin. apply list_elem_of_singleton in Hin.
    injection Hin as -> ->. exists c.
    split; [done|]. right. simpl. apply elem_of_app. right. left.
  - intros l acc sub [_ Hsub]. split; [apply (grows_merge_sub re_search)|].
    intros d f Hin. destruct (Hsub d f Hin) as (c & Hc & [Hp|Hq]);
      exists c; (split; [done|]); simpl; [left | right];
      apply elem_of_app; by right.
Qed.

(** ** The sources of a plan *)

Lemma name_end_inj n1 n2 r1 r2 :
  slash_free n1 → slash_free n2 →
  r1 = [] ∨ (∃ r, r1 = sep :: r) →
  r2 = [] ∨ (∃ r, r2 = sep :: r) →
  n1 ++ r1 = n2 ++ r2 → n1 = n2.
Proof.
  revert n2. induction n1 as [|x n1 IH]; intros [|y n2] H1 H2 E1 E2 E;
    simpl in E.
  - done.
  - exfalso. destruct E1 as [->|[r ->]]; [done|].
    injection E as <- _. apply H2. left.
  - exfalso. destruct E2 as [->|[r ->]]; [done|].
    injection E as -> _. apply H1. left.
  - injection E as <- E. f_equal. apply (IH n2); [| |done..].
    + intros ?. apply H1. by right.
    + intros ?. apply H2. by right.
Qed.

Lemma well_formed_name e :
  well_formed e = true → entry_name e ≠ [] ∧ slash_free (entry_name e).
Proof.
  destruct e as [n|n l]; simpl; intros H; [by apply valid_name_spec|].
  apply andb_true_iff in H as [[H _]%andb_true_iff _].
  by apply valid_name_spec.
Qed.

(** In a listing with distinct valid names the paths of the files
    enumerated are distinct: each lies below the entry it comes from. *)
Lemma walk_paths_listing l :
  Forall (λ e, well_formed e = true →
               ∀ recursive d,
                 NoDup (path_of <$> walk_entry recursive d e)
                 ∧ ∀ s, s ∈ path_of <$> walk_entry recursive d e →
                     below d (entry_name e) s) l →
  forallb well_formed l = true →
  NoDup (entry_name <$> l) →
  ∀ recursive d,
    NoDup (path_of <$> walk recursive d l)
    ∧ ∀ s, s ∈ path_of <$> walk recursive d l →
        ∃ e, e ∈ l ∧ slash_free (entry_name e) ∧ below d (entry_name e) s.
Proof.
  induction 1 as [|x l Hx _ IHl]; intros Hwf Hnd recursive d.
  { split; [constructor|]. intros s Hs. by apply elem_of_nil in Hs. }
  simpl in Hwf. apply andb_true_iff in Hwf as [Hwx Hwl].
  rewrite fmap_cons in Hnd. apply NoDup_cons in Hnd as [Hfresh Hnd].
  destruct (Hx Hwx recursive d) as [Hndx Hbx].
  destruct (IHl Hwl Hnd recursive d) as [Hndl Hbl].
  destruct (well_formed_name x Hwx) as [_ Hsx].
  rewrite walk_cons, fmap_app. split.
  - apply NoDup_app. split; [done|]. split; [|done].
    intros s Hs1 Hs2.
    destruct (Hbx s Hs1) as (r1 & E1 & Hr1).
    destruct (Hbl s Hs2) as (e & He & Hse & r2 & E2 & Hr2).
    rewrite E1 in E2. apply app_inv_head in E2.
    apply name_end_inj in E2; [|done..].
    apply Hfresh. rewrite E2. apply list_elem_of_fmap. by exists e.
  - intros s [Hs|Hs]%elem_of_app.
    + exists x. split; [left|]. split; [done | by apply Hbx].
    + destruct (Hbl s Hs) as (e & He & Hse & Hb). exists e.
      split; [by right | done].
Qed.

Lemma walk_paths_entry e :
  well_formed e = true →
  ∀ recursive d,
    NoDup (path_of <$> walk_entry recursive d e)
    ∧ ∀ s, s ∈ path_of <$> walk_entry recursive d e →
        below d (entry_name e) s.
Proof.
  induction e as [n|n l IH] using entry_nested_ind; intros Hwf recursive d.
  - destruct (well_formed_name _ Hwf) as [_ Hn]. simpl in *. split.
    + apply NoDup_singleton.
    + intros s ->%list_elem_of_singleton. exists []. unfold path_of. simpl.
      rewrite app_nil_r. split; [by apply join_slash_free | by left].
  - destruct (well_formed_name _ Hwf) as [Hne Hn]. simpl in Hne, Hn.
    destruct recursive.
    2:{ simpl. split; [constructor|]. intros s Hs.
        by apply elem_of_nil in Hs. }
    rewrite walk_entry_dir. simpl in Hwf.
    apply andb_true_iff in Hwf as [[_ Hwl]%andb_true_iff Hnd].
    apply bool_decide_eq_true in Hnd.
    destruct (walk_paths_listing l IH Hwl Hnd true (join d n)) as [Hndl Hbl].
    split; [done|]. intros s Hs.
    destruct (Hbl s Hs) as (e & _ & _ & r & -> & _).
    exists (sep :: entry_name e ++ r). simpl.
    rewrite dirprefix_join by done. rewrite <- !app_assoc.
    split; [done | right; by eexists].
Qed.

(** X5. In a directory tree with valid, pairwise distinct entry names no
    file is planned twice: the sources of the RenamePairs of a run are
    pairwise distinct. *)
Theorem planned_sources_distinct directory recursive config items plan :
  listing_ok items = true →
  collect_rename_pairs re_search directory recursive config items = Ok plan →
  NoDup (rename_pairs plan).*1.
Proof.
  intros [Hwf Hnd]%andb_true_iff Hrun. apply bool_decide_eq_true in Hnd.
  destruct (plan_follows_traversal _ _ _ _ _ Hrun) as [Hsub _].
  eapply sublist_NoDup; [|exact Hsub].
  apply walk_paths_listing; [|done..].
  apply Forall_forall. intros e _. apply walk_paths_entry.
Qed.

(** ** With and without recursion *)

Lemma names_plain_step config e directory recursive acc acc' :
  names_plain acc →
  process_item re_search directory recursive config e acc = Ok acc' →
  names_plain acc'.
Proof.
  apply (process_item_invariant names_plain); unfold names_plain; simpl.
  - intros n Hn. by apply not_elem_of_empty in Hn.
  - intros a d f c Ha _ _ n [Hn| ->%elem_of_singleton]%elem_of_union;
      [by apply Ha | apply basename_slash_free].
  - done.
  - intros a sub Ha Hsub n [Hn|Hn]%elem_of_union; [by apply Ha | by apply Hsub].
Qed.

Lemma alongside_grows directory a0 a1 a1' :
  alongside directory a0 a1 → grows a1 a1' → names_plain a1' →
  alongside directory a0 a1'.
Proof.
  intros (Hex & Hcs & Hps & _) Hg Hplain.
  pose proof Hg as (_ & [k Hk] & Hex').
  split; [by etrans|]. split; [|split; [|done]].
  - rewrite Hk. by apply sublist_inserts_r.
  - intros p Hp. destruct (Hps p Hp) as [Hin|(f & c & Hin & ->)].
    + left. by eapply grows_pair_kept.
    + right. exists f, c. split; [by eapply grows_conflict_kept | done].
Qed.

Lemma alongside_run config directory items :
  ∀ a0 a1 b0 b1,
    alongside directory a0 a1 →
    collect_items re_search directory false config items a0 = Ok b0 →
    collect_items re_search directory true config items a1 = Ok b1 →
    alongside directory b0 b1.
Proof.
  induction items as [|[f|n l] items IH]; intros a0 a1 b0 b1 Hal.
  - by intros [= <-] [= <-].
  - rewrite !collect_items_cons.
    intros (a0' & H0 & Hrest0)%bind_Ok (a1' & H1 & Hrest1)%bind_Ok.
    eapply IH; [|exact Hrest0|exact Hrest1]. clear IH Hrest0 Hrest1.
    assert (alongside directory a0 a1') as (_ & _ & Hold & Hplain').
    { eapply alongside_grows; [exact Hal| |].
      - by apply process_item_grows in H1 as [? _].
      - destruct Hal as (_ & _ & _ & Hplain). by eapply names_plain_step. }
    destruct Hal as (Hex & Hcs & _ & Hplain).
    rewrite process_item_file in H0, H1.
    apply bind_Ok in H0 as (c & Hc & H0).
    apply bind_Ok in H1 as (c' & Hc' & H1).
    rewrite Hc in Hc'. injection Hc' as <-.
    destruct (decide (c ∈ existing_new_filenames a0)) as [Hin0|Hin0];
      destruct (decide (c ∈ existing_new_filenames a1)) as [Hin1|Hin1];
      injection H0 as <-; injection H1 as <-.
    + split; [done|]. split; [by apply sublist_app|]. by split.
    + destruct Hin1. by apply Hex.
    + split.
      { simpl. intros x [Hx| ->%elem_of_singleton]%elem_of_union;
          [by apply Hex|].
        rewrite basename_join_any.
        pose proof (basename_after_prefix [] c (Hplain c Hin1)
                      (or_introl eq_refl)) as E.
        simpl in E. by rewrite E. }
      split; [by apply sublist_inserts_r|]. split; [|done].
      intros p [Hp| ->%list_elem_of_singleton]%elem_of_app; [by apply Hold|].
      right. exists f, c. split; [|done]. apply elem_of_app. right. left.
    + split.
      { simpl. intros x [Hx| ->%elem_of_singleton]%elem_of_union;
          apply elem_of_union; [left; by apply Hex | right].
        by apply elem_of_singleton. }
      split; [done|]. split; [|done].
      intros p [Hp| ->%list_elem_of_singleton]%elem_of_app; [by apply Hold|].
      left. apply elem_of_app. right. left.
  - rewrite !collect_items_cons, process_item_skip.
    intros (a0' & [= <-] & Hrest0)%bind_Ok (a1' & H1 & Hrest1)%bind_Ok.
    eapply IH; [|exact Hrest0|exact Hrest1].
    eapply alongside_grows; [exact Hal| |].
    + by apply process_item_grows in H1 as [? _].
    + destruct Hal as (_ & _ & _ & Hplain). by eapply names_plain_step.
Qed.

(** X6. Turning recursion on only takes renames away from the files of
    the directory itself: the conflicts of the run without recursion are
    conflicts of the recursive run, in the same order, and each
    RenamePair of the run without recursion is a RenamePair of the
    recursive run or has become the ConflictPair of the same file and
    candidate. *)
Theorem recursion_only_adds_conflicts directory config items flat deep :
  collect_rename_pairs re_search directory false config items = Ok flat →
  collect_rename_pairs re_search directory true config items = Ok deep →
  conflict_files flat `sublist_of` conflict_files deep
  ∧ existing_new_filenames flat ⊆ existing_new_filenames deep
  ∧ ∀ p, p ∈ rename_pairs flat →
      p ∈ rename_pairs deep
      ∨ ∃ f c, (f, c) ∈ conflict_files deep
               ∧ p = (join directory f, join directory c).
Proof.
  intros Hflat Hdeep.
  destruct (alongside_run config directory items empty_plan empty_plan
              flat deep) as (Hex & Hcs & Hps & _); [|done..].
  split; [done|]. split; [done|]. split.
  - intros p Hp. by apply elem_of_nil in Hp.
  - intros n Hn. by apply not_elem_of_empty in Hn.
Qed.

(** ** The extension *)

(** X7. A candidate name ends with the extension of the filename it was
    computed from. *)
Theorem candidate_keeps_extension config filename cand :
  candidate_name re_search config filename = Ok cand →
  (splitext filename).2 `suffix_of` cand.
Proof.
  unfold candidate_name.
  intros ([[[y m] e] t] & _ & Hgen)%bind_Ok. simpl in Hgen.
  unfold generate_new_filename in Hgen.
  destruct y as [ym|].
  2:{ injection Hgen as <-. apply splitext_suffix. }
  apply bind_Ok in Hgen as (gy & _ & Hgen).
  destruct m as [mm|].
  - apply bind_Ok in Hgen as (gm & _ & Hgen).
    apply bind_Ok in Hgen as (month & _ & [= <-]).
    exists (format_value gy ++ [extsep] ++ month ++ [extsep] ++ e
              ++ [extsep] ++ t).
    by rewrite <- !app_assoc.
  - injection Hgen as <-.
    exists (format_value gy ++ [extsep] ++ e ++ [extsep] ++ t).
    by rewrite <- !app_assoc.
Qed.

End Planner.

(** * Preview, execution and the command *)

(** ** Message texts *)

(** The code points of a UTF-8 byte sequence (well-formed, as the
    literals of this file are). *)
Fixpoint utf8_decode (bytes : list N) : str :=
  match bytes with
  | [] => []
  | b0 :: r0 =>
      if (b0 <? 128)%N then b0 :: utf8_decode r0
      else
        match r0 with
        | [] => []
        | b1 :: r1 =>
            if (b0 <? 224)%N then
              ((b0 - 192) * 64 + (b1 - 128))%N :: utf8_decode r1
            else
              match r1 with
              | [] => []
              | b2 :: r2 =>
                  if (b0 <? 240)%N then
                    ((b0 - 224) * 4096 + (b1 - 128) * 64 + (b2 - 128))%N
                      :: utf8_decode r2
                  else
                    match r2 with
                    | [] => []
                    | b3 :: r3 =>
                        ((b0 - 240) * 262144 + (b1 - 128) * 4096
                         + (b2 - 128) * 64 + (b3 - 128))%N
                          :: utf8_decode r3
                    end
              end
        end
  end.

(** A literal of the source as a [str]. *)
Definition text (s : string) : str := utf8_decode (lit s).

Arguments text s%_string : simpl never.

Definition newline : N := 10%N.

Definition config_missing_head : str := text "配置文件 ".
Definition config_missing_tail : str := text " 未找到，使用默认规则。".
Definition config_broken_tail : str := text " JSON 格式错误，请检查。".
Definition preview_dry : str := text "将要执行的重命名操作预览".
Definition preview_real : str := text "即将执行的重命名操作预览".
Definition rename_line_head : str := text "  重命名: ".
Definition arrow : str := text " -> ".
Definition skipped_header : str := text "以下文件由于目标文件已存在而将被跳过:".
Definition skip_line_head : str := text "  跳过: ".
Definition skip_line_mid : str := text " (目标: ".
Definition none_skipped : str := text "没有文件因冲突而被跳过。".
Definition confirm_prompt : str := text "确认执行重命名 (y/n)? ".
Definition invalid_answer : str := text "无效输入，请回答 'y' 或 'n'。".
Definition dry_run_notice : str := text "以 dry-run 模式运行，未执行实际重命名。".
Definition renamed_head : str := text "已重命名: ".
Definition not_found_head : str := text "重命名失败: 文件未找到 - ".
Definition no_permission_head : str := text "重命名失败: 权限不足 - 无法重命名 ".
Definition failed_head : str := text "重命名失败: ".
Definition failed_to : str := text " 到 ".
Definition failed_dash : str := text " - ".
Definition directory_prompt : str := text "请输入要处理的目录路径: ".
Definition directory_retry : str := text "错误：指定的目录不存在，请重新输入。".
Definition recursive_prompt : str := text "是否需要递归处理子文件夹？ (y/n): ".
Definition directory_missing : str := text "错误：指定的目录不存在。".
Definition exit_prompt : str := text "按回车键退出...".
Definition done_message : str := text "文件重命名操作已完成。".
Definition cancelled_message : str := text "重命名操作已取消。".
Definition nothing_message : str := text "没有需要重命名的文件。".

(** The path [load_config] is called with. *)
Definition config_path : str := lit "config.json".

(** ** The console and the log *)

(** What the program writes: [print] calls, the prompts of [input], and
    the records handed to [logging] (level and message; the format adds
    the time of day). *)
Inductive event : Set :=
  | Print (s : str)
  | Prompt (s : str)
  | LogInfo (s : str)
  | LogWarning (s : str)
  | LogError (s : str).

(** How a call ends that does not return: [input] at the end of the
    input, or an exception nothing catches. *)
Inductive failure : Set :=
  | EOFError
  | Uncaught (e : exn).

Inductive answer (A : Type) : Type :=
  | Return (a : A)
  | Fail (e : failure).
Arguments Return {A} a.
Arguments Fail {A} e.

(** The command line: [args.directory], [args.recursive],
    [args.dry_run]. *)
Record Args : Set := {
  arg_directory : option str;
  arg_recursive : bool;
  arg_dry_run : bool
}.

(** The records [load_config] logs. *)
Definition load_config_log (attempt : result Config) : list event :=
  match attempt with
  | Raise FileNotFoundError =>
      [LogWarning (config_missing_head ++ config_path ++ config_missing_tail)]
  | Raise JSONDecodeError =>
      [LogError (config_missing_head ++ config_path ++ config_broken_tail)]
  | _ => []
  end.

(** The lines of the preview. *)
Definition rename_line (p : RenamePair) : event :=
  Print (rename_line_head ++ basename p.1 ++ arrow ++ basename p.2).

Definition skip_line (c : ConflictPair) : event :=
  Print (skip_line_head ++ c.1 ++ skip_line_mid ++ c.2 ++ lit ")").

Definition preview_lines (rename_pairs : list RenamePair)
    (conflict_files : list ConflictPair) (dry_run : bool) : list event :=
  let operation := if dry_run then preview_dry else preview_real in
  [Print (newline :: operation ++ lit ":")]
  ++ (rename_line <$> rename_pairs)
  ++ match conflict_files with
     | [] => [Print (newline :: none_skipped)]
     | _ => Print (newline :: skipped_header) :: (skip_line <$> conflict_files)
     end.

Arguments preview_lines : simpl never.

Section Command.

Variable re_search : str → str → result (option Match).

(** [s.strip()] and [s.lower()] *)
Variable strip : str → str.
Variable lower : str → str.

(** [str(e)] for an exception [os.rename] raised. *)
Variable exn_text : exn → str.

(** The file system: [os.path.isdir], the tree the planner enumerates
    from a directory, and [os.rename], which returns the file system it
    leaves or raises. *)
Variable FS : Type.
Variable isdir : FS → str → bool.
Variable tree_at : FS → str → list entry.
Variable os_rename : FS → str → str → result FS.

(** The lines still to be read, what was written, and the files. *)
Record world : Type := {
  stdin : list str;
  out : list event;
  disk : FS
}.

Definition emit (es : list event) (w : world) : world :=
  {| stdin := stdin w; out := out w ++ es; disk := disk w |}.

(** [print(s)] *)
Definition print (s : str) (w : world) : world := emit [Print s] w.

(** [input(prompt)] *)
Definition input (prompt : str) (w : world) : answer str * world :=
  match stdin w with
  | [] => (Fail EOFError, emit [Prompt prompt] w)
  | line :: rest =>
      (Return line,
       {| stdin := rest; out := out w ++ [Prompt prompt]; disk := disk w |})
  end.

(** The loop [while True: a = input(prompt).strip().lower(); ...] that
    [display_preview] and [main] run for a yes or a no. *)
Fixpoint yes_no_loop (prompt : str) (lines : list str) (o : list event)
  : answer bool * list str * list event :=
  match lines with
  | [] => (Fail EOFError, [], o ++ [Prompt prompt])
  | line :: rest =>
      let a := lower (strip line) in
      if decide (a = lit "y") then (Return true, rest, o ++ [Prompt prompt])
      else if decide (a = lit "n") then
        (Return false, rest, o ++ [Prompt prompt])
      else yes_no_loop prompt rest (o ++ [Prompt prompt; Print invalid_answer])
  end.

Definition ask_yes_no (prompt : str) (w : world) : answer bool * world :=
  let '(r, lines, o) := yes_no_loop prompt (stdin w) (out w) in
  (r, {| stdin := lines; out := o; disk := disk w |}).

Definition display_preview (rename_pairs : list RenamePair)
    (conflict_files : list ConflictPair) (dry_run : bool) (w : world)
  : answer bool * world :=
  let w := emit (preview_lines rename_pairs conflict_files dry_run) w in
  if negb dry_run then ask_yes_no (newline :: confirm_prompt) w
  else (Return true, w).

(** One iteration of the loop of [rename_files]: the [try] with its
    three handlers. *)
Definition rename_one (w : world) (p : RenamePair) : world :=
  let '(old_path, new_path) := p in
  match os_rename (disk w) old_path new_path with
  | Ok d =>
      {| stdin := stdin w;
         out := out w ++ [LogInfo (renamed_head ++ basename old_path
                                     ++ arrow ++ basename new_path)];
         disk := d |}
  | Raise FileNotFoundError =>
      emit [LogError (not_found_head ++ basename old_path)] w
  | Raise PermissionError =>
      emit [LogError (no_permission_head ++ basename old_path)] w
  | Raise e =>
      emit [LogError (failed_head ++ basename old_path ++ failed_to
                        ++ basename new_path ++ failed_dash ++ exn_text e)] w
  end.

Definition rename_files (rename_pairs : list RenamePair) (dry_run : bool)
    (w : world) : world :=
  if dry_run then emit [LogInfo dry_run_notice] w
  else foldl rename_one w rename_pairs.

(** The loop of [main] that asks for a directory until it is given one. *)
Fixpoint directory_loop (d : FS) (lines : list str) (o : list event)
  : answer str * list str * list event :=
  match lines with
  | [] => (Fail EOFError, [], o ++ [Prompt directory_prompt])
  | line :: rest =>
      let directory := strip line in
      if isdir d directory then
        (Return directory, rest, o ++ [Prompt directory_prompt])
      else
        directory_loop d rest
          (o ++ [Prompt directory_prompt; Print directory_retry])
  end.

Definition ask_directory (w : world) : answer str * world :=
  let '(r, lines, o) := directory_loop (disk w) (stdin w) (out w) in
  (r, {| stdin := lines; out := o; disk := disk w |}).

(** [if getattr(sys, 'frozen', False): input("按回车键退出...")] *)
Definition pause_if_frozen (frozen : bool) (w : world) : answer () * world :=
  if frozen then
    match input exit_prompt w with
    | (Return _, w) => (Return (), w)
    | (Fail e, w) => (Fail e, w)
    end
  else (Return (), w).

(** [main] from the plan on: the preview, the renames, the final
    message. *)
Definition report_and_rename (plan : Plan) (dry_run frozen : bool)
    (w : world) : answer () * world :=
  match rename_pairs plan, conflict_files plan with
  | [], [] => pause_if_frozen frozen (print (newline :: nothing_message) w)
  | _, _ =>
      match display_preview (rename_pairs plan) (conflict_files plan)
              dry_run w with
      | (Return true, w) =>
          pause_if_frozen frozen
            (print (newline :: done_message)
               (rename_files (rename_pairs plan) dry_run w))
      | (Return false, w) =>
          pause_if_frozen frozen (print (newline :: cancelled_message) w)
      | (Fail e, w) => (Fail e, w)
      end
  end.

(** [main], with the parsed command line, [sys.frozen] and the outcome
    of reading the configuration file. *)
Definition main (args : Args) (frozen : bool) (attempt : result Config)
    (w : world) : answer () * world :=
  let w := emit (load_config_log attempt) w in
  match load_config attempt with
  | Raise e => (Fail (Uncaught e), w)
  | Ok config =>
      let asked :=
        match arg_directory args with
        | Some (c :: d) => (Return (c :: d), w)
        | _ => ask_directory w
        end in
      match asked with
      | (Fail e, w) => (Fail e, w)
      | (Return directory, w) =>
          let chosen :=
            if arg_recursive args then (Return true, w)
            else ask_yes_no recursive_prompt w in
          match chosen with
          | (Fail e, w) => (Fail e, w)
          | (Return recursive, w) =>
              if negb (isdir (disk w) directory) then
                pause_if_frozen frozen (print directory_missing w)
              else
                match collect_rename_pairs re_search directory recursive
                        config (tree_at (disk w) directory) with
                | Raise e => (Fail (Uncaught e), w)
                | Ok plan =>
                    report_and_rename plan (arg_dry_run args) frozen w
                end
          end
      end
  end.

(** ** Vocabulary *)

(** An input line that is neither a yes nor a no. *)
Definition no_answer (line : str) : Prop :=
  lower (strip line) ≠ lit "y" ∧ lower (strip line) ≠ lit "n".

(** The text of the answer [b]. *)
Definition yes_no (b : bool) : str := if b then lit "y" else lit "n".

(** From [w] to [w']: input was only read and output only written. *)
Definition later (w w' : world) : Prop :=
  stdin w' `suffix_of` stdin w ∧ out w `prefix_of` out w'.

(** From [w] to [w'], and the files are as they were. *)
Definition steady (w w' : world) : Prop :=
  disk w' = disk w ∧ later w w'.

(** What [os.rename] leaves, whether it raised or not. *)
Definition renamed (d : FS) (p : RenamePair) : FS :=
  match os_rename d p.1 p.2 with
  | Ok d' => d'
  | Raise _ => d
  end.

(** The record logged for the pair [p] when [os.rename] ended with
    [outcome]: the info record when it returned, and the error record of
    the handler that catches what it raised. *)
Definition record_of (p : RenamePair) (outcome : result FS) : event :=
  match outcome with
  | Ok _ => LogInfo (renamed_head ++ basename p.1 ++ arrow ++ basename p.2)
  | Raise FileNotFoundError => LogError (not_found_head ++ basename p.1)
  | Raise PermissionError => LogError (no_permission_head ++ basename p.1)
  | Raise e =>
      LogError (failed_head ++ basename p.1 ++ failed_to ++ basename p.2
                  ++ failed_dash ++ exn_text e)
  end.

(** ** The question *)

Lemma yes_no_loop_answer prompt bad ans rest b o :
  Forall no_answer bad →
  lower (strip ans) = yes_no b →
  yes_no_loop prompt (bad ++ ans :: rest) o
  = (Return b, rest,
     o ++ (bad ≫= λ _, [Prompt prompt; Print invalid_answer])
       ++ [Prompt prompt]).
Proof.
  intros Hbad Hans. revert o.
  induction Hbad as [|line bad [Hy Hn] _ IH]; intros o; simpl.
  - rewrite Hans. by destruct b.
  - rewrite decide_False by done. rewrite decide_False by done.
    rewrite IH. by rewrite <- !app_assoc.
Qed.

Lemma yes_no_loop_eof prompt lines o :
  Forall no_answer lines →
  yes_no_loop prompt lines o
  = (Fail EOFError, [],
     o ++ (lines ≫= λ _, [Prompt prompt; Print invalid_answer])
       ++ [Prompt prompt]).
Proof.
  intros Hbad. revert o.
  induction Hbad as [|line bad [Hy Hn] _ IH]; intros o; simpl; [done|].
  rewrite decide_False by done. rewrite decide_False by done.
  rewrite IH. by rewrite <- !app_assoc.
Qed.

Lemma yes_no_loop_later prompt lines o :
  ∀ r rest o',
    yes_no_loop prompt lines o = (r, rest, o') →
    rest `suffix_of` lines ∧ o `prefix_of` o'
    ∧ (r = Return true → ∃ l, l ∈ lines ∧ lower (strip l) = lit "y").
Proof.
  revert o. induction lines as [|line lines IH]; intros o r rest o'; simpl.
  { intros [= <- <- <-]. split; [done|]. split; [by apply prefix_app_r|].
    done. }
  case_decide as Hy; [|case_decide as Hn].
  - intros [= <- <- <-]. split; [by apply suffix_cons_r|].
    split; [by apply prefix_app_r|]. intros _. exists line.
    split; [left | done].
  - intros [= <- <- <-]. split; [by apply suffix_cons_r|].
    split; [by apply prefix_app_r | done].
  - intros (Hs & Hp & Hr)%IH. split; [by apply suffix_cons_r|]. split.
    + etrans; [|exact Hp]. by apply prefix_app_r.
    + intros (l & Hl & E)%Hr. exists l. split; [by right | done].
Qed.

(** X8. Outside a dry run the preview takes the first line that is a
    yes or a no, after [strip] and [lower], as the answer: it returns
    True for y and False for n, prints the complaint and asks again
    after every line before it, leaves the lines after it unread and
    the files as they are. *)
Theorem display_preview_first_answer rename_pairs conflict_files w bad ans
    rest b :
  stdin w = bad ++ ans :: rest →
  Forall no_answer bad →
  lower (strip ans) = yes_no b →
  display_preview rename_pairs conflict_files false w
  = (Return b,
     {| stdin := rest;
        out := out w ++ preview_lines rename_pairs conflict_files false
                 ++ (bad ≫= λ _, [Prompt (newline :: confirm_prompt);
                                  Print invalid_answer])
                 ++ [Prompt (newline :: confirm_prompt)];
        disk := disk w |}).
Proof.
  intros Hin Hbad Hans. unfold display_preview, ask_yes_no, emit.
  cbn [negb stdin out disk].
  rewrite Hin, (yes_no_loop_answer _ bad ans rest b) by done.
  by rewrite <- !app_assoc.
Qed.

(** X9. Outside a dry run, when the input ends before a yes or a no the
    preview does not return: [input] raises EOFError, with every line
    read and the files as they are. *)
Theorem display_preview_end_of_input rename_pairs conflict_files w :
  Forall no_answer (stdin w) →
  display_preview rename_pairs conflict_files false w
  = (Fail EOFError,
     {| stdin := [];
        out := out w ++ preview_lines rename_pairs conflict_files false
                 ++ (stdin w ≫= λ _, [Prompt (newline :: confirm_prompt);
                                      Print invalid_answer])
                 ++ [Prompt (newline :: confirm_prompt)];
        disk := disk w |}).
Proof.
  intros Hbad. unfold display_preview, ask_yes_no, emit.
  cbn [negb stdin out disk].
  rewrite yes_no_loop_eof by done. by rewrite <- !app_assoc.
Qed.

(** ** The renames *)

Lemma rename_one_step w p :
  stdin (rename_one w p) = stdin w
  ∧ disk (rename_one w p) = renamed (disk w) p
  ∧ out (rename_one w p)
    = out w ++ [record_of p (os_rename (disk w) p.1 p.2)].
Proof.
  destruct p as [old_path new_path]. unfold rename_one, renamed, record_of.
  simpl. destruct (os_rename (disk w) old_path new_path) as [d|e]; simpl.
  - done.
  - by destruct e.
Qed.

(** X10. Outside a dry run [rename_files] tries every pair, in the order
    of the plan and whatever happened to the pairs before: the files it
    leaves are those that the calls of [os.rename] leave one after the
    other, a call that raises leaving them as they were. It logs one
    record for each pair, in that order: for the pair at position [i] the
    record of what [os.rename] did with it in the files the first [i]
    calls left, the info record if it returned and the error record of
    its exception if it raised. It reads no input and raises nothing. *)
Theorem rename_files_tries_every_pair rename_pairs w :
  let w' := rename_files rename_pairs false w in
  let files_before i := foldl renamed (disk w) (take i rename_pairs) in
  stdin w' = stdin w
  ∧ disk w' = foldl renamed (disk w) rename_pairs
  ∧ ∃ records,
      out w' = out w ++ records
      ∧ length records = length rename_pairs
      ∧ ∀ i p,
          rename_pairs !! i = Some p →
          records !! i
          = Some (record_of p (os_rename (files_before i) p.1 p.2)).
Proof.
  unfold rename_files. cbv zeta. cbn [negb]. revert w.
  induction rename_pairs as [|p l IH]; intros w.
  { split; [done|]. split; [done|]. exists [].
    split; [by rewrite app_nil_r|]. split; [done|]. by intros i p. }
  cbn [foldl].
  destruct (rename_one_step w p) as (Hin & Hdisk & Hout).
  destruct (IH (rename_one w p)) as (Hin' & Hdisk' & records & Hout' & Hlen
                                     & Hrec).
  split; [by rewrite Hin'|]. split; [by rewrite Hdisk', Hdisk|].
  exists (record_of p (os_rename (disk w) p.1 p.2) :: records).
  split; [by rewrite Hout', Hout, <- app_assoc|].
  split; [by rewrite !length_cons, Hlen|].
  intros [|i] q; cbn [lookup list_lookup take foldl].
  - by intros [= <-].
  - intros Hq. specialize (Hrec i q Hq). by rewrite Hdisk in Hrec.
Qed.

(** The renames of a plan in two parts are the renames of the first part
    followed by the renames of the second. *)
Lemma rename_files_in_parts first second w :
  rename_files (first ++ second) false w
  = rename_files second false (rename_files first false w).
Proof. unfold rename_files. apply foldl_app. Qed.

(** ** What leaves the files as they are *)

Lemma later_refl w : later w w.
Proof. by split. Qed.

Lemma later_trans w1 w2 w3 : later w1 w2 → later w2 w3 → later w1 w3.
Proof. intros [? ?] [? ?]. split; by etrans. Qed.

Lemma steady_refl w : steady w w.
Proof. split; [done | apply later_refl]. Qed.

Lemma steady_trans w1 w2 w3 : steady w1 w2 → steady w2 w3 → steady w1 w3.
Proof.
  intros [E1 L1] [E2 L2]. split; [congruence | by eapply later_trans].
Qed.

Lemma emit_steady es w : steady w (emit es w).
Proof. split; [done|]. split; [done | by apply prefix_app_r]. Qed.

Lemma input_steady prompt w : steady w (input prompt w).2.
Proof.
  unfold input. destruct (stdin w) as [|line rest] eqn:E; simpl.
  - apply emit_steady.
  - split; [done|]. split; simpl; [|by apply prefix_app_r].
    rewrite E. by apply suffix_cons_r.
Qed.

Lemma ask_yes_no_steady prompt w :
  steady w (ask_yes_no prompt w).2
  ∧ ((ask_yes_no prompt w).1 = Return true →
     ∃ l, l ∈ stdin w ∧ lower (strip l) = lit "y").
Proof.
  unfold ask_yes_no.
  destruct (yes_no_loop prompt (stdin w) (out w)) as [[r rest] o] eqn:E.
  apply yes_no_loop_later in E as (Hs & Hp & Hr). simpl.
  split; [|done]. by split.
Qed.

Lemma directory_loop_later d lines o :
  ∀ r rest o',
    directory_loop d lines o = (r, rest, o') →
    rest `suffix_of` lines ∧ o `prefix_of` o'.
Proof.
  revert o. induction lines as [|line lines IH]; intros o r rest o'; simpl.
  { intros [= <- <- <-]. split; [done | by apply prefix_app_r]. }
  destruct (isdir d (strip line)).
  - intros [= <- <- <-].
    split; [by apply suffix_cons_r | by apply prefix_app_r].
  - intros [Hs Hp]%IH. split; [by apply suffix_cons_r|].
    etrans; [|exact Hp]. by apply prefix_app_r.
Qed.

Lemma ask_directory_steady w : steady w (ask_directory w).2.
Proof.
  unfold ask_directory.
  destruct (directory_loop (disk w) (stdin w) (out w)) as [[r rest] o] eqn:E.
  apply directory_loop_later in E as [Hs Hp]. by split.
Qed.

Lemma pause_steady frozen w : steady w (pause_if_frozen frozen w).2.
Proof.
  unfold pause_if_frozen. destruct frozen; [|apply steady_refl].
  pose proof (input_steady exit_prompt w) as H.
  by destruct (input exit_prompt w) as [[line|e] w'].
Qed.

Lemma display_preview_steady rename_pairs conflict_files dry_run w :
  steady w (display_preview rename_pairs conflict_files dry_run w).2
  ∧ (dry_run = false →
     (display_preview rename_pairs conflict_files dry_run w).1 = Return true →
     ∃ l, l ∈ stdin w ∧ lower (strip l) = lit "y").
Proof.
  unfold display_preview. destruct dry_run; cbn [negb].
  - split; [apply emit_steady | done].
  - destruct (ask_yes_no_steady (newline :: confirm_prompt)
                (emit (preview_lines rename_pairs conflict_files false) w))
      as [Hs Hy].
    split; [|by intros _].
    eapply steady_trans; [apply emit_steady | exact Hs].
Qed.

Lemma rename_files_later rename_pairs dry_run w :
  later w (rename_files rename_pairs dry_run w)
  ∧ (dry_run = true → steady w (rename_files rename_pairs dry_run w)).
Proof.
  destruct dry_run.
  - pose proof (emit_steady [LogInfo dry_run_notice] w) as H.
    split; [by destruct H | done].
  - split; [|done].
    destruct (rename_files_tries_every_pair rename_pairs w)
      as (Hin & _ & records & Hout & _).
    split; [by rewrite Hin | rewrite Hout; by apply prefix_app_r].
Qed.

Lemma report_and_rename_steady plan dry_run frozen w :
  dry_run = true ∨ Forall (λ l, lower (strip l) ≠ lit "y") (stdin w) →
  steady w (report_and_rename plan dry_run frozen w).2.
Proof.
  intros Hsafe. unfold report_and_rename.
  assert (steady w
            (match display_preview (rename_pairs plan) (conflict_files plan)
                     dry_run w with
             | (Return true, w0) =>
                 pause_if_frozen frozen
                   (print (newline :: done_message)
                      (rename_files (rename_pairs plan) dry_run w0))
             | (Return false, w0) =>
                 pause_if_frozen frozen (print (newline :: cancelled_message) w0)
             | (Fail e, w0) => (Fail e, w0)
             end).2) as Hshown.
  { destruct (display_preview_steady (rename_pairs plan) (conflict_files plan)
                dry_run w) as [Hs Hy].
    destruct (display_preview (rename_pairs plan) (conflict_files plan)
                dry_run w) as [[[|]|e] w0]; simpl in *; [| |done].
    - destruct dry_run.
      + eapply steady_trans; [exact Hs|].
        eapply steady_trans; [by apply rename_files_later|].
        eapply steady_trans; [apply emit_steady | apply pause_steady].
      + destruct Hsafe as [?|Hno]; [done|].
        destruct (Hy eq_refl eq_refl) as (l & Hl & E).
        by destruct (proj1 (Forall_forall _ _) Hno l Hl).
    - eapply steady_trans; [exact Hs|].
      eapply steady_trans; [apply emit_steady | apply pause_steady]. }
  destruct (rename_pairs plan), (conflict_files plan); try exact Hshown.
  eapply steady_trans; [apply emit_steady | apply pause_steady].
Qed.

Lemma steady_no_yes w w' :
  steady w w' →
  Forall (λ l, lower (strip l) ≠ lit "y") (stdin w) →
  Forall (λ l, lower (strip l) ≠ lit "y") (stdin w').
Proof.
  intros (_ & [k Hk] & _) Hno. rewrite Hk in Hno.
  by apply Forall_app in Hno as [_ ?].
Qed.

(** X11. [main] renames only in a run that is not a dry run and in which
    a line of the input is a yes: in a dry run, and in a run whose input
    has no line that is "y" after [strip] and [lower], it leaves the
    files as they are, however it ends. *)
Theorem main_renames_only_on_yes args frozen attempt w :
  arg_dry_run args = true
  ∨ Forall (λ l, lower (strip l) ≠ lit "y") (stdin w) →
  disk (main args frozen attempt w).2 = disk w.
Proof.
  intros Hsafe.
  cut (steady w (main args frozen attempt w).2); [by intros [? _]|].
  unfold main.
  pose proof (emit_steady (load_config_log attempt) w) as H0.
  destruct (load_config attempt) as [config|e]; [|done].
  set (w0 := emit (load_config_log attempt) w) in *.
  assert (∀ (asked : answer str * world),
            steady w0 asked.2 →
            steady w
              (match asked with
               | (Fail e, w1) => (Fail e, w1)
               | (Return directory, w1) =>
                   match (if arg_recursive args then (Return true, w1)
                          else ask_yes_no recursive_prompt w1) with
                   | (Fail e, w2) => (Fail e, w2)
                   | (Return recursive, w2) =>
                       if negb (isdir (disk w2) directory) then
                         pause_if_frozen frozen (print directory_missing w2)
                       else
                         match collect_rename_pairs re_search directory
                                 recursive config
                                 (tree_at (disk w2) directory) with
                         | Raise e => (Fail (Uncaught e), w2)
                         | Ok plan =>
                             report_and_rename plan (arg_dry_run args)
                               frozen w2
                         end
                   end
               end).2) as Hrest.
  { intros [[directory|e] w1] H1; simpl in H1;
      [|by eapply steady_trans].
    assert (steady w w1) as Hw1 by (by eapply steady_trans).
    assert (steady w1 (if arg_recursive args then (Return true, w1)
                       else ask_yes_no recursive_prompt w1).2) as H2.
    { destruct (arg_recursive args); [apply steady_refl|].
      apply ask_yes_no_steady. }
    destruct (if arg_recursive args then (Return true, w1)
              else ask_yes_no recursive_prompt w1) as [[recursive|e] w2];
      simpl in H2; [|by eapply steady_trans].
    assert (steady w w2) as Hw2 by (by eapply steady_trans).
    destruct (negb (isdir (disk w2) directory)).
    { eapply steady_trans; [exact Hw2|].
      eapply steady_trans; [apply emit_steady | apply pause_steady]. }
    destruct (collect_rename_pairs re_search directory recursive config
                (tree_at (disk w2) directory)) as [plan|e]; [|done].
    eapply steady_trans; [exact Hw2|].
    apply report_and_rename_steady.
    destruct Hsafe as [?|Hno]; [by left | right].
    by eapply steady_no_yes. }
  destruct (arg_directory args) as [[|c d]|].
  - apply (Hrest (ask_directory w0)), ask_directory_steady.
  - apply (Hrest (Return (c :: d), w0)), steady_refl.
  - apply (Hrest (ask_directory w0)), ask_directory_steady.
Qed.

(** ** The directory *)

(** X12. Without a directory on the command line [main] asks for one
    until a line, after [strip], names a directory: it takes that line,
    prints the complaint after every line before it, and leaves the
    lines after it unread. *)
Theorem directory_asked_until_valid w bad good rest :
  stdin w = bad ++ good :: rest →
  Forall (λ l, isdir (disk w) (strip l) = false) bad →
  isdir (disk w) (strip good) = true →
  ask_directory w
  = (Return (strip good),
     {| stdin := rest;
        out := out w ++ (bad ≫= λ _, [Prompt directory_prompt;
                                      Print directory_retry])
                 ++ [Prompt directory_prompt];
        disk := disk w |}).
Proof.
  intros Hin Hbad Hgood. unfold ask_directory. rewrite Hin.
  cut (∀ o, directory_loop (disk w) (bad ++ good :: rest) o
            = (Return (strip good), rest,
               o ++ (bad ≫= λ _, [Prompt directory_prompt;
                                  Print directory_retry])
                 ++ [Prompt directory_prompt])).
  { intros H. by rewrite H. }
  clear Hin. induction Hbad as [|line bad Hline _ IH]; intros o.
  - simpl. by rewrite Hgood.
  - simpl. rewrite Hline, IH. by rewrite <- !app_assoc.
Qed.

(** X13. With a directory on the command line that is no directory
    [main] plans nothing and renames nothing: it reports the missing
    directory, after it has asked whether to recurse when the command
    line does not say so. *)
Theorem missing_directory_reported args frozen attempt config w c d :
  load_config attempt = Ok config →
  arg_directory args = Some (c :: d) →
  isdir (disk w) (c :: d) = false →
  main args frozen attempt w
  = match (if arg_recursive args
           then (Return true, emit (load_config_log attempt) w)
           else ask_yes_no recursive_prompt
                  (emit (load_config_log attempt) w)) with
    | (Fail e, w1) => (Fail e, w1)
    | (Return _, w1) => pause_if_frozen frozen (print directory_missing w1)
    end.
Proof.
  intros Hload Hdir Hmissing. unfold main. rewrite Hload, Hdir.
  assert (steady (emit (load_config_log attempt) w)
            (if arg_recursive args
             then (Return true, emit (load_config_log attempt) w)
             else ask_yes_no recursive_prompt
                    (emit (load_config_log attempt) w)).2) as Hs.
  { destruct (arg_recursive args); [apply steady_refl|].
    apply ask_yes_no_steady. }
  destruct (if arg_recursive args
            then (Return true, emit (load_config_log attempt) w)
            else ask_yes_no recursive_prompt
                   (emit (load_config_log attempt) w))
    as [[recursive|e] w1]; [|done].
  destruct Hs as [Hdisk _]. simpl in Hdisk. by rewrite Hdisk, Hmissing.
Qed.

(** ** The whole command *)

Lemma main_direct args frozen attempt config w c d plan :
  load_config attempt = Ok config →
  arg_directory args = Some (c :: d) →
  arg_recursive args = true →
  isdir (disk w) (c :: d) = true →
  collect_rename_pairs re_search (c :: d) true config
    (tree_at (disk w) (c :: d)) = Ok plan →
  main args frozen attempt w
  = report_and_rename plan (arg_dry_run args) frozen
      (emit (load_config_log attempt) w).
Proof.
  intros Hload Hdir Hrec Hisdir Hplan. unfold main.
  rewrite Hload, Hdir, Hrec. simpl. by rewrite Hisdir, Hplan.
Qed.



(** X15. A dry run of a plan that is not empty reads no input and
    leaves the files as they are; it prints the preview, logs that
    nothing was renamed and then prints that the renames are done. *)
Theorem dry_run_prints_completion args attempt config w c d plan :
  load_config attempt = Ok config →
  arg_directory args = Some (c :: d) →
  arg_recursive args = true →
  arg_dry_run args = true →
  isdir (disk w) (c :: d) = true →
  collect_rename_pairs re_search (c :: d) true config
    (tree_at (disk w) (c :: d)) = Ok plan →
  count_listing true (tree_at (disk w) (c :: d)) ≠ 0%nat →
  main args false attempt w
  = (Return (),
     {| stdin := stdin w;
        out := out w ++ load_config_log attempt
                 ++ preview_lines (rename_pairs plan) (conflict_files plan)
                      true
                 ++ [LogInfo dry_run_notice; Print (newline :: done_message)];
        disk := disk w |}).
Proof.
  intros Hload Hdir Hrec Hdry Hisdir Hplan Hfiles.
  rewrite (main_direct _ _ _ _ _ _ _ _ Hload Hdir Hrec Hisdir Hplan), Hdry.
  pose proof (collect_items_count _ _ _ _ _ _ _ Hplan) as Hcount.
  unfold entries in Hcount. simpl in Hcount.
  unfold report_and_rename, display_preview, rename_files, print, emit.
  cbn [negb pause_if_frozen stdin out disk].
  destruct (rename_pairs plan) eqn:Ep, (conflict_files plan) eqn:Ec;
    [simpl in Hcount; lia | ..]; by rewrite <- !app_assoc.
Qed.

(** ** Without a configuration *)



End Command.

Arguments Build_world {FS} stdin out disk.
Arguments stdin {FS} w.
Arguments out {FS} w.
Arguments disk {FS} w.

(** ** A sample console and disk *)

(** [strip] and [lower] on lines of ASCII letters and spaces. *)
Fixpoint lstrip_spaces (s : str) : str :=
  match s with
  | 32%N :: r => lstrip_spaces r
  | _ => s
  end.

Definition strip_spaces (s : str) : str :=
  reverse (lstrip_spaces (reverse (lstrip_spaces s))).

Definition lower_ascii (s : str) : str :=
  (λ c, if bool_decide (65 ≤ c ≤ 90)%N then (c + 32)%N else c) <$> s.

Definition sample_text (e : exn) : str := lit "failed".

(** A disk that is the one directory docs, with regular files only:
    [os.rename] gives the file of the old base name the new one. *)
Definition sample_isdir (fs : list entry) (d : str) : bool :=
  bool_decide (d = lit "docs").

Definition sample_tree (fs : list entry) (d : str) : list entry := fs.

Definition named (n : str) (e : entry) : bool :=
  is_file e && bool_decide (entry_name e = n).

Definition sample_rename (fs : list entry) (old new : str)
  : result (list entry) :=
  if existsb (named (basename old)) fs then
    Ok ((λ e, if named (basename old) e then File (basename new) else e)
          <$> fs)
  else Raise FileNotFoundError.

Definition sample_files : list entry :=
  [File (lit "2023_03_examA.pdf"); File (lit "2023_03_examB.pdf");
   File (lit "notes.txt")].

Definition sample_main :=
  main lit_search strip_spaces lower_ascii sample_text (list entry)
    sample_isdir sample_tree sample_rename.

Definition docs_args (recursive dry_run : bool) : Args :=
  {| arg_directory := Some (lit "docs");
     arg_recursive := recursive;
     arg_dry_run := dry_run |}.

Example text_decodes_utf8 : text "未知" = unknown.
Proof. reflexivity. Qed.

(** A run that is confirmed after a line that is no answer: the first
    file is renamed, the second is reported, the third keeps its name. *)
Example confirmed_run :
  sample_main (docs_args true false) false (Ok exam_config)
    {| stdin := [lit "what"; lit " Y "]; out := []; disk := sample_files |}
  = (Return (),
     {| stdin := [];
        out :=
          [Print (newline :: preview_real ++ lit ":");
           Print (rename_line_head ++ lit "2023_03_examA.pdf" ++ arrow
                    ++ lit "2023.03.examA.pdf.pdf");
           Print (rename_line_head ++ lit "notes.txt" ++ arrow
                    ++ lit "notes.txt");
           Print (newline :: skipped_header);
           Print (skip_line_head ++ lit "2023_03_examB.pdf" ++ skip_line_mid
                    ++ lit "2023.03.examA.pdf.pdf" ++ lit ")");
           Prompt (newline :: confirm_prompt);
           Print invalid_answer;
           Prompt (newline :: confirm_prompt);
           LogInfo (renamed_head ++ lit "2023_03_examA.pdf" ++ arrow
                      ++ lit "2023.03.examA.pdf.pdf");
           LogInfo (renamed_head ++ lit "notes.txt" ++ arrow
                      ++ lit "notes.txt");
           Print (newline :: done_message)];
        disk := [File (lit "2023.03.examA.pdf.pdf");
                 File (lit "2023_03_examB.pdf"); File (lit "notes.txt")] |}).
Proof. vm_compute. reflexivity. Qed.

(** A dry run without a configuration file: the warning is logged and
    every file is planned under its own name. *)
Example missing_config_run :
  sample_main (docs_args true true) false (Raise FileNotFoundError)
    {| stdin := []; out := []; disk := sample_files |}
  = (Return (),
     {| stdin := [];
        out :=
          [LogWarning (config_missing_head ++ lit "config.json"
                         ++ config_missing_tail);
           Print (newline :: preview_dry ++ lit ":");
           Print (rename_line_head ++ lit "2023_03_examA.pdf" ++ arrow
                    ++ lit "2023_03_examA.pdf");
           Print (rename_line_head ++ lit "2023_03_examB.pdf" ++ arrow
                    ++ lit "2023_03_examB.pdf");
           Print (rename_line_head ++ lit "notes.txt" ++ arrow
                    ++ lit "notes.txt");
           Print (newline :: none_skipped);
           LogInfo dry_run_notice;
           Print (newline :: done_message)];
        disk := sample_files |}).
Proof. vm_compute. reflexivity. Qed.


(** A batch whose first rename fails: the error is logged and the
    second rename is made. *)
Example failed_rename_does_not_stop_batch :
  rename_files sample_text (list entry) sample_rename
    [(lit "docs/gone.txt", lit "docs/here.txt");
     (lit "docs/notes.txt", lit "docs/n.txt")] false
    {| stdin := []; out := []; disk := sample_files |}
  = {| stdin := [];
       out := [LogError (not_found_head ++ lit "gone.txt");
               LogInfo (renamed_head ++ lit "notes.txt" ++ arrow
                          ++ lit "n.txt")];
       disk := [File (lit "2023_03_examA.pdf");
                File (lit "2023_03_examB.pdf"); File (lit "n.txt")] |}.
Proof. vm_compute. reflexivity. Qed.

(** ** The further properties at the sample inputs *)

Lemma claimed_names_are_target_base_names_witness :
  ∃ plan,
    collect_rename_pairs lit_search (lit "docs") true exam_config exam_tree
    = Ok plan
    ∧ ∀ n, (n ∈ existing_new_filenames plan
            ↔ ∃ p, p ∈ rename_pairs plan ∧ basename p.2 = n)
           ∧ (n ∈ existing_new_filenames plan → slash_free n).
Proof.
  eexists. split; [vm_compute; reflexivity|].
  apply (claimed_names_are_target_base_names lit_search (lit "docs") true
           exam_config exam_tree).
  vm_compute; reflexivity.
Defined.

Lemma conflict_names_planned_target_witness :
  ∃ plan,
    collect_rename_pairs lit_search (lit "docs") true exam_config exam_tree
    = Ok plan
    ∧ ∃ p, p ∈ rename_pairs plan
           ∧ basename p.2 = lit "2023.03.examA.pdf.pdf".
Proof.
  eexists. split; [vm_compute; reflexivity|].
  apply (conflict_names_planned_target lit_search (lit "docs") true
           exam_config exam_tree _ ltac:(vm_compute; reflexivity)
           (lit "2023_03_examB.pdf")).
  simpl. left.
Defined.

Lemma plan_follows_traversal_witness :
  ∃ plan,
    collect_rename_pairs lit_search (lit "docs") true exam_config exam_tree
    = Ok plan
    ∧ walk true (lit "docs") exam_tree
      = [(lit "docs", lit "2023_03_examA.pdf");
         (lit "docs/old", lit "2023_03_exam_draft.pdf");
         (lit "docs", lit "2023_03_examB.pdf");
         (lit "docs", lit "notes.txt")]
    ∧ (rename_pairs plan).*1
        `sublist_of` (path_of <$> walk true (lit "docs") exam_tree)
    ∧ (conflict_files plan).*1
        `sublist_of` (walk true (lit "docs") exam_tree).*2.
Proof.
  eexists. split; [vm_compute; reflexivity|]. split; [reflexivity|].
  apply (plan_follows_traversal lit_search (lit "docs") true exam_config
           exam_tree).
  vm_compute; reflexivity.
Defined.

Lemma every_file_planned_or_reported_witness :
  ∃ plan,
    collect_rename_pairs lit_search (lit "docs") true exam_config exam_tree
    = Ok plan
    ∧ ∃ c, candidate_name lit_search exam_config (lit "2023_03_exam_draft.pdf")
           = Ok c
           ∧ ((join (lit "docs/old") (lit "2023_03_exam_draft.pdf"),
               join (lit "docs/old") c) ∈ rename_pairs plan
              ∨ (lit "2023_03_exam_draft.pdf", c) ∈ conflict_files plan).
Proof.
  eexists. split; [vm_compute; reflexivity|].
  apply (every_file_planned_or_reported lit_search (lit "docs") true
           exam_config exam_tree _ ltac:(vm_compute; reflexivity)).
  simpl. right. left.
Defined.

Lemma planned_sources_distinct_witness :
  ∃ plan,
    collect_rename_pairs lit_search (lit "docs") true exam_config exam_tree
    = Ok plan
    ∧ listing_ok exam_tree = true
    ∧ NoDup (rename_pairs plan).*1.
Proof.
  eexists. split; [vm_compute; reflexivity|]. split; [reflexivity|].
  apply (planned_sources_distinct lit_search (lit "docs") true exam_config
           exam_tree);
    vm_compute; reflexivity.
Defined.

(** In the tree with the twins the file x.pdf of the directory is
    planned without recursion and reported with it. *)
Lemma recursion_only_adds_conflicts_witness :
  ∃ flat deep,
    collect_rename_pairs lit_search (lit "r") false empty_config twin_tree
    = Ok flat
    ∧ collect_rename_pairs lit_search (lit "r") true empty_config twin_tree
      = Ok deep
    ∧ rename_pairs flat = [(lit "r/x.pdf", lit "r/x.pdf")]
    ∧ conflict_files deep = [(lit "x.pdf", lit "x.pdf")]
    ∧ conflict_files flat `sublist_of` conflict_files deep
    ∧ existing_new_filenames flat ⊆ existing_new_filenames deep
    ∧ ∀ p, p ∈ rename_pairs flat →
        p ∈ rename_pairs deep
        ∨ ∃ f c, (f, c) ∈ conflict_files deep
                 ∧ p = (join (lit "r") f, join (lit "r") c).
Proof.
  eexists. eexists. split; [vm_compute; reflexivity|].
  split; [vm_compute; reflexivity|]. split; [reflexivity|].
  split; [reflexivity|].
  apply (recursion_only_adds_conflicts lit_search (lit "r") empty_config
           twin_tree);
    vm_compute; reflexivity.
Defined.

Lemma candidate_keeps_extension_witness :
  candidate_name lit_search exam_config (lit "2023_03_examA.tar.gz")
  = Ok (lit "2023.03.examA." ++ unknown ++ lit ".gz")
  ∧ (splitext (lit "2023_03_examA.tar.gz")).2 = lit ".gz"
  ∧ (splitext (lit "2023_03_examA.tar.gz")).2
      `suffix_of` lit "2023.03.examA." ++ unknown ++ lit ".gz".
Proof.
  split; [reflexivity|]. split; [reflexivity|].
  apply (candidate_keeps_extension lit_search exam_config
           (lit "2023_03_examA.tar.gz")).
  reflexivity.
Defined.

Lemma display_preview_first_answer_witness :
  display_preview strip_spaces lower_ascii (list entry)
    [(lit "docs/a.txt", lit "docs/b.txt")] [] false
    {| stdin := [lit "what"; lit " Y "; lit "n"]; out := [];
       disk := sample_files |}
  = (Return true,
     {| stdin := [lit "n"];
        out := [] ++ preview_lines [(lit "docs/a.txt", lit "docs/b.txt")] []
                       false
                 ++ ([lit "what"] ≫= λ _, [Prompt (newline :: confirm_prompt);
                                           Print invalid_answer])
                 ++ [Prompt (newline :: confirm_prompt)];
        disk := sample_files |}).
Proof.
  apply (display_preview_first_answer strip_spaces lower_ascii (list entry)
           [(lit "docs/a.txt", lit "docs/b.txt")] []
           {| stdin := [lit "what"; lit " Y "; lit "n"]; out := [];
              disk := sample_files |}
           [lit "what"] (lit " Y ") [lit "n"] true).
  - reflexivity.
  - repeat constructor; discriminate.
  - reflexivity.
Defined.

Lemma display_preview_end_of_input_witness :
  display_preview strip_spaces lower_ascii (list entry) [] [] false
    {| stdin := [lit "what"]; out := []; disk := sample_files |}
  = (Fail EOFError,
     {| stdin := [];
        out := [] ++ preview_lines [] [] false
                 ++ ([lit "what"] ≫= λ _, [Prompt (newline :: confirm_prompt);
                                           Print invalid_answer])
                 ++ [Prompt (newline :: confirm_prompt)];
        disk := sample_files |}).
Proof.
  apply (display_preview_end_of_input strip_spaces lower_ascii (list entry)
           [] [] {| stdin := [lit "what"]; out := []; disk := sample_files |}).
  repeat constructor; discriminate.
Defined.

(** Without a yes the sample run leaves the disk as it is. *)
Lemma main_renames_only_on_yes_witness :
  disk (sample_main (docs_args false false) false (Ok exam_config)
          {| stdin := [lit "n"; lit "no"; lit "N"]; out := [];
             disk := sample_files |}).2
  = sample_files.
Proof.
  apply (main_renames_only_on_yes lit_search strip_spaces lower_ascii
           sample_text (list entry) sample_isdir sample_tree sample_rename
           (docs_args false false) false (Ok exam_config)
           {| stdin := [lit "n"; lit "no"; lit "N"]; out := [];
              disk := sample_files |}).
  right. repeat constructor; discriminate.
Defined.

Lemma directory_asked_until_valid_witness :
  ask_directory strip_spaces (list entry) sample_isdir
    {| stdin := [lit "nowhere"; lit " docs "; lit "y"]; out := [];
       disk := sample_files |}
  = (Return (strip_spaces (lit " docs ")),
     {| stdin := [lit "y"];
        out := [] ++ ([lit "nowhere"] ≫= λ _, [Prompt directory_prompt;
                                               Print directory_retry])
                 ++ [Prompt directory_prompt];
        disk := sample_files |}).
Proof.
  apply (directory_asked_until_valid strip_spaces (list entry) sample_isdir
           {| stdin := [lit "nowhere"; lit " docs "; lit "y"]; out := [];
              disk := sample_files |}
           [lit "nowhere"] (lit " docs ") [lit "y"]).
  - reflexivity.
  - repeat constructor.
  - reflexivity.
Defined.

(** The question about recursion comes before the complaint. *)
Lemma missing_directory_reported_witness :
  sample_main {| arg_directory := Some (lit "nowhere");
                 arg_recursive := false; arg_dry_run := false |}
    false (Ok exam_config)
    {| stdin := [lit "y"]; out := []; disk := sample_files |}
  = (Return (),
     {| stdin := [];
        out := [Prompt recursive_prompt; Print directory_missing];
        disk := sample_files |}).
Proof.
  unfold sample_main.
  rewrite (missing_directory_reported lit_search strip_spaces lower_ascii
             sample_text (list entry) sample_isdir sample_tree sample_rename
             {| arg_directory := Some (lit "nowhere");
                arg_recursive := false; arg_dry_run := false |}
             false (Ok exam_config) exam_config
             {| stdin := [lit "y"]; out := []; disk := sample_files |}
             110%N (lit "owhere") eq_refl eq_refl eq_refl).
  reflexivity.
Defined.


Lemma dry_run_prints_completion_witness :
  ∃ plan,
    collect_rename_pairs lit_search (lit "docs") true exam_config sample_files
    = Ok plan
    ∧ sample_main (docs_args true true) false (Ok exam_config)
        {| stdin := [lit "n"]; out := []; disk := sample_files |}
      = (Return (),
         {| stdin := [lit "n"];
            out := [] ++ load_config_log (Ok exam_config)
                     ++ preview_lines (rename_pairs plan)
                          (conflict_files plan) true
                     ++ [LogInfo dry_run_notice;
                         Print (newline :: done_message)];
            disk := sample_files |}).
Proof.
  eexists. split; [vm_compute; reflexivity|].
  apply (dry_run_prints_completion lit_search strip_spaces lower_ascii
           sample_text (list entry) sample_isdir sample_tree sample_rename
           (docs_args true true) (Ok exam_config) exam_config
           {| stdin := [lit "n"]; out := []; disk := sample_files |}
           100%N (lit "ocs"));
    [reflexivity | reflexivity | reflexivity | reflexivity | reflexivity
    | vm_compute; reflexivity | discriminate].
Defined.
